(** * Claim-winnings action: eligibility, paging, claim loop and report

    A shallow embedding of [src/actions/claimWinningsAction.ts].

    - JavaScript strings are [string]s of ASCII text (addresses, decimal
      amounts and token ids are ASCII); [bigint] is [Z]; a nullable field
      [T | null] is an [option T].
    - A function that may throw returns a [Completion]; code that talks to
      the index or to the chain runs in the monad [M] over an abstract
      [World].
    - Records follow the TypeScript interfaces of the source.  Where two
      interfaces share a field name the field gets a short prefix. *)

From Stdlib Require Import ZArith String Ascii List Bool Lia Arith.
From Stdlib Require Import DecimalString.
Import ListNotations.

Local Open Scope string_scope.
Local Open Scope Z_scope.

(* ================================================================== *)
(** ** JavaScript primitives used by the action *)
(* ================================================================== *)

(** [String.prototype.toLowerCase] on ASCII text: [A-Z] go to [a-z], every
    other character is kept. *)
Definition lower_ascii (c : ascii) : ascii :=
  let n := nat_of_ascii c in
  if ((65 <=? n) && (n <=? 90))%nat then ascii_of_nat (n + 32) else c.

Fixpoint toLowerCase (s : string) : string :=
  match s with
  | EmptyString => EmptyString
  | String c r => String (lower_ascii c) (toLowerCase r)
  end.

(** Truthiness of a string value: only the empty string is falsy. *)
Definition truthy (s : string) : bool := negb (s =? "")%string.

(** Truthiness of [string | null | undefined]. *)
Definition truthy_opt (o : option string) : bool :=
  match o with
  | Some s => truthy s
  | None => false
  end.

(** [o || d] for a nullable string [o] and a string [d]. *)
Definition or_else (o : option string) (d : string) : string :=
  match o with
  | Some s => if truthy s then s else d
  | None => d
  end.

(** [a || b] for two nullable strings. *)
Definition or_opt (a b : option string) : option string :=
  if truthy_opt a then a else b.

(** [s.slice(0, n)]. *)
Definition slice0 (n : nat) (s : string) : string := substring 0 n s.

(** Thrown values.  [BigInt(text)] throws a [SyntaxError] on text that is
    not an integer literal; [new Error(message)] and whatever an external
    collaborator throws is a [PlainError] carrying its message. *)
Inductive Error : Type :=
| SyntaxError (text : string)
| PlainError (message : string).

Definition error_message (e : Error) : string :=
  match e with
  | SyntaxError text => "Cannot convert " ++ text ++ " to a BigInt"
  | PlainError m => m
  end.

(** Result of evaluating code that may throw. *)
Inductive Completion (A : Type) : Type :=
| Return (a : A)
| Throw (e : Error).
Arguments Return {A} a.
Arguments Throw {A} e.

(** *** [BigInt(string)]

    StringToBigInt of ECMAScript: white space is trimmed, the empty text
    is zero, then either a decimal literal with an optional sign or an
    unsigned literal with prefix [0x], [0o] or [0b]. *)

Definition is_white_space (c : ascii) : bool :=
  let n := nat_of_ascii c in
  (((9 <=? n) && (n <=? 13)) || (n =? 32))%nat.

Fixpoint trim_start (s : string) : string :=
  match s with
  | EmptyString => EmptyString
  | String c r => if is_white_space c then trim_start r else s
  end.

Fixpoint trim_end (s : string) : string :=
  match s with
  | EmptyString => EmptyString
  | String c r =>
      match trim_end r with
      | EmptyString => if is_white_space c then EmptyString else String c EmptyString
      | r' => String c r'
      end
  end.

Definition trim (s : string) : string := trim_end (trim_start s).

Definition digit_value (base : Z) (c : ascii) : option Z :=
  let n := Z.of_nat (nat_of_ascii c) in
  let v :=
    if (48 <=? n) && (n <=? 57) then Some (n - 48)
    else if (97 <=? n) && (n <=? 102) then Some (n - 87)
    else if (65 <=? n) && (n <=? 70) then Some (n - 55)
    else None in
  match v with
  | Some d => if d <? base then Some d else None
  | None => None
  end.

Fixpoint parse_digits (base : Z) (s : string) (acc : Z) : option Z :=
  match s with
  | EmptyString => Some acc
  | String c r =>
      match digit_value base c with
      | Some d => parse_digits base r (acc * base + d)
      | None => None
      end
  end.

(** One digit at least. *)
Definition parse_number (base : Z) (s : string) : option Z :=
  match s with
  | EmptyString => None
  | _ => parse_digits base s 0
  end.

Definition StringToBigInt (s : string) : option Z :=
  match trim s with
  | EmptyString => Some 0
  | String "0" (String "x" r) | String "0" (String "X" r) => parse_number 16 r
  | String "0" (String "o" r) | String "0" (String "O" r) => parse_number 8 r
  | String "0" (String "b" r) | String "0" (String "B" r) => parse_number 2 r
  | String "+" r => parse_number 10 r
  | String "-" r => option_map Z.opp (parse_number 10 r)
  | t => parse_number 10 t
  end.

Definition BigInt (s : string) : Completion Z :=
  match StringToBigInt s with
  | Some z => Return z
  | None => Throw (SyntaxError s)
  end.

(** Template-literal rendering of an integer-valued [number]. *)
Definition number_to_string (n : Z) : string :=
  NilZero.string_of_int (Z.to_int n).

(* ================================================================== *)
(** ** Data model *)
(* ================================================================== *)

Record ConditionInfo : Type := {
  cond_id : string;
  question : option string;
  shortName : option string;
  endTime : option Z;
  resolver : option string;
  settled : bool;
  resolvedToYes : bool
}.

Record PredictionInfo : Type := {
  conditionId : string;
  outcomeYes : bool;
  pred_chainId : option Z;
  condition : option ConditionInfo
}.

(** [predictions] has the declared type [PredictionInfo[]]; the guards
    [!position.predictions] and [position.predictions?.] of the source
    never fire on a value of that type. *)
Record ClaimablePosition : Type := {
  pos_id : Z;
  chainId : Z;
  marketAddress : string;
  predictor : string;
  counterparty : string;
  predictorNftTokenId : string;
  counterpartyNftTokenId : string;
  totalCollateral : string;
  predictorCollateral : option string;
  counterpartyCollateral : option string;
  refCode : option string;
  status : string;
  predictorWon : option bool;
  settledAt : option Z;
  predictions : list PredictionInfo
}.

(** The value returned by [getClaimableInfo]. *)
Record ClaimableInfo : Type := {
  tokenId : string;
  isWinner : bool;
  winnings : Z;
  marketName : string
}.

(* ================================================================== *)
(** ** Eligibility evaluator *)
(* ================================================================== *)

(** [pred.condition && pred.condition.settled === true], as [every]
    reads it. *)
Definition leg_settled (pred : PredictionInfo) : bool :=
  match condition pred with
  | Some c => Bool.eqb (settled c) true
  | None => false
  end.

Definition areAllConditionsSettled (position : ClaimablePosition) : bool :=
  if (length (predictions position) =? 0)%nat then false
  else forallb leg_settled (predictions position).

(** The callback of [every] in [didPredictorWin]. *)
Definition leg_won (pred : PredictionInfo) : bool :=
  match condition pred with
  | None => false
  | Some c =>
      if negb (settled c) then false
      else Bool.eqb (outcomeYes pred) (resolvedToYes c)
  end.

Definition didPredictorWin (position : ClaimablePosition) : bool :=
  if (length (predictions position) =? 0)%nat then false
  else forallb leg_won (predictions position).

(** [position.predictions?.[0]?.condition]. *)
Definition first_condition (position : ClaimablePosition) : option ConditionInfo :=
  match predictions position with
  | [] => None
  | pred :: _ => condition pred
  end.

Definition market_label (position : ClaimablePosition) : string :=
  let c := first_condition position in
  or_else
    (or_opt
       (match c with Some ci => shortName ci | None => None end)
       (match c with
        | Some ci => option_map (slice0 50) (question ci)
        | None => None
        end))
    ("Position #" ++ number_to_string (pos_id position)).

Definition getClaimableInfo (position : ClaimablePosition) (walletAddress : string)
  : Completion (option ClaimableInfo) :=
  let addr := toLowerCase walletAddress in
  let isPredictor := (toLowerCase (predictor position) =? addr)%string in
  let isCounterparty := (toLowerCase (counterparty position) =? addr)%string in
  if negb isPredictor && negb isCounterparty then Return None
  else if negb (status position =? "active")%string then Return None
  else if negb (areAllConditionsSettled position) then Return None
  else
    let predictorWon := didPredictorWin position in
    let isWinner :=
      (isPredictor && predictorWon) || (isCounterparty && negb predictorWon) in
    match BigInt (totalCollateral position) with
    | Throw e => Throw e
    | Return totalCollateral =>
        match (if isPredictor
               then BigInt (or_else (predictorCollateral position) "0")
               else BigInt (or_else (counterpartyCollateral position) "0")) with
        | Throw e => Throw e
        | Return userCollateral =>
            let winnings :=
              if isWinner then totalCollateral - userCollateral else 0 in
            let tokenId :=
              if isPredictor then predictorNftTokenId position
              else counterpartyNftTokenId position in
            Return (Some {| tokenId := tokenId;
                            isWinner := isWinner;
                            winnings := winnings;
                            marketName := market_label position |})
        end
    end.

(** The two sides of a position, as [getClaimableInfo] tests them. *)
Definition is_predictor (position : ClaimablePosition) (walletAddress : string) : bool :=
  (toLowerCase (predictor position) =? toLowerCase walletAddress)%string.

Definition is_counterparty (position : ClaimablePosition) (walletAddress : string) : bool :=
  (toLowerCase (counterparty position) =? toLowerCase walletAddress)%string.

(** The three gating checks of [getClaimableInfo]. *)
Definition passes_gating (position : ClaimablePosition) (walletAddress : string) : bool :=
  (is_predictor position walletAddress || is_counterparty position walletAddress)
  && (status position =? "active")%string
  && areAllConditionsSettled position.

(* ------------------------------------------------------------------ *)
(** *** Sample data *)

Definition mkCondition (isSettled yes : bool) : ConditionInfo :=
  {| cond_id := "0xc1"; question := Some "Will it rain tomorrow?";
     shortName := Some "Rain"; endTime := None; resolver := None;
     settled := isSettled; resolvedToYes := yes |}.

Definition mkLeg (yes : bool) (c : option ConditionInfo) : PredictionInfo :=
  {| conditionId := "0xc1"; outcomeYes := yes; pred_chainId := None;
     condition := c |}.

Definition alice : string := "0xAbC1".
Definition bob : string := "0xB0b2".

Definition mkPosition (maker taker total : string) (pc cc : option string)
  (legs : list PredictionInfo) : ClaimablePosition :=
  {| pos_id := 7; chainId := 5064014; marketAddress := "0xfeed";
     predictor := maker; counterparty := taker;
     predictorNftTokenId := "11"; counterpartyNftTokenId := "12";
     totalCollateral := total;
     predictorCollateral := pc; counterpartyCollateral := cc;
     refCode := None; status := "active"; predictorWon := None;
     settledAt := None; predictions := legs |}.

(** Scenario A of the design: one settled leg, predictor called it. *)
Definition scenarioA : ClaimablePosition :=
  mkPosition alice bob "100" (Some "40") (Some "60")
    [mkLeg true (Some (mkCondition true true))].

(* ------------------------------------------------------------------ *)
(** *** Vocabulary for stating the evaluator's properties *)

(** A leg the predictor called right: its condition is present, settled,
    and resolved to the predicted outcome. *)
Definition LegCorrect (pred : PredictionInfo) : Prop :=
  exists c, condition pred = Some c /\ settled c = true
            /\ outcomeYes pred = resolvedToYes c.

(** A leg whose condition is present and settled. *)
Definition LegSettled (pred : PredictionInfo) : Prop :=
  exists c, condition pred = Some c /\ settled c = true.

(** The stake [getClaimableInfo] subtracts for this caller. *)
Definition caller_stake (position : ClaimablePosition) (walletAddress : string) : string :=
  if is_predictor position walletAddress
  then or_else (predictorCollateral position) "0"
  else or_else (counterpartyCollateral position) "0".

Definition caller_wins (position : ClaimablePosition) (walletAddress : string) : bool :=
  (is_predictor position walletAddress && didPredictorWin position)
  || (is_counterparty position walletAddress && negb (didPredictorWin position)).

Definition caller_token (position : ClaimablePosition) (walletAddress : string) : string :=
  if is_predictor position walletAddress then predictorNftTokenId position
  else counterpartyNftTokenId position.


(* ------------------------------------------------------------------ *)
(** *** Decimal numerals *)

(** The character of a decimal digit. *)
Definition digit_char (d : nat) : ascii := ascii_of_nat (48 + d).

(** The text of a list of decimal digits, most significant first. *)
Fixpoint numeral (ds : list nat) : string :=
  match ds with
  | [] => EmptyString
  | d :: rest => String (digit_char d) (numeral rest)
  end.

(** The integer a list of decimal digits denotes, on top of [acc]. *)
Fixpoint horner (ds : list nat) (acc : Z) : Z :=
  match ds with
  | [] => acc
  | d :: rest => horner rest (acc * 10 + Z.of_nat d)
  end.

(* ================================================================== *)
(** ** External collaborators *)
(* ================================================================== *)

Record QueryVariables : Type := {
  address : string;
  q_chainId : Z;
  take : nat;
  skip : nat
}.

(** The body handed to [fetch], before [JSON.stringify]. *)
Record RequestBody : Type := {
  query : string;
  variables : QueryVariables
}.

(** [positions] has the declared type [ClaimablePosition[]], so the
    fallback of [response.positions || []] never fires. *)
Record PositionsResponse : Type := {
  positions : list ClaimablePosition
}.

Record GraphQLError : Type := {
  gql_message : option string
}.

(** The parsed body of a reply: [json.errors] and [json.data]. *)
Record JsonBody : Type := {
  errors : option (list GraphQLError);
  data : PositionsResponse
}.

(** A [fetch] response; [json] is what [response.json()] completes with. *)
Record HttpResponse : Type := {
  ok : bool;
  statusText : string;
  json : Completion JsonBody
}.

Record Transaction : Type := {
  to : string;
  data_hex : string;
  value : string
}.

Record SubmitArgs : Type := {
  rpc : string;
  s_chainId : Z;
  s_privateKey : string;
  tx : Transaction
}.

Record TxReceipt : Type := {
  hash : string
}.

Record ContractAddresses : Type := {
  PREDICTION_MARKET : string
}.

Record ApiEndpoints : Type := {
  sapienceGraphql : string
}.

(** Everything the action imports: [fetch], the helpers of
    [utils/blockchain.js] and [utils/sdk.js], and viem's encoder and
    formatter.  [World] is the state of the index and of the chain. *)
Class Runtime : Type := {
  World : Type;
  getWalletAddress : Completion string;
  getPrivateKey : Completion string;
  getTradingRpcUrl : Completion string;
  getTradingContractAddresses : Completion ContractAddresses;
  getApiEndpoints : Completion ApiEndpoints;
  CHAIN_ID_ETHEREAL : Z;
  fetch : string -> RequestBody -> World -> World * Completion HttpResponse;
  loadSdk : World -> World * Completion unit;
  submitTransaction : SubmitArgs -> World -> World * Completion TxReceipt;
  encodeFunctionData : Z -> string -> Completion string;
  formatEther : Z -> string
}.

(** The constants the handler reads once at its start. *)
Record Env : Type := {
  walletAddress : string;
  privateKey : string;
  rpcUrl : string;
  marketContract : string;
  graphqlEndpoint : string
}.

(** One entry of [claimablePositions]. *)
Record Claimable : Type := {
  position : ClaimablePosition;
  c_tokenId : string;
  c_isWinner : bool;
  c_winnings : Z;
  c_marketName : string
}.

(** One entry of [results]. *)
Record ClaimResult : Type := {
  r_tokenId : string;
  r_marketName : string;
  r_winnings : string;
  txHash : option string;
  error : option string
}.

(** Which of the three response texts the handler builds. *)
Inductive ResponseText : Type :=
| ClaimedSuccessfully
| PartialSuccess
| FailedToClaim.

(** The [content] of the final callback. *)
Record Report : Type := {
  success : bool;
  claimableCount : nat;
  winningCount : nat;
  losingCount : nat;
  successfulClaims : nat;
  failedClaims : nat;
  totalWinnings : string;
  results : list ClaimResult;
  responseText : ResponseText
}.

(** What the handler passes to its callback, one constructor per call
    site. *)
Inductive Content : Type :=
| NoActivePositions
| NoneSettled (activePositions : nat)
| NoWinners (claimable losing : nat)
| Claimed (report : Report)
| ActionFailed (message : string).

Definition dquote : string := String (ascii_of_nat 34) EmptyString.

Definition CLAIMABLE_POSITIONS_QUERY : string :=
  "
  query ClaimablePositions($address: String!, $chainId: Int, $take: Int, $skip: Int) {
    positions(
      address: $address
      chainId: $chainId
      status: " ++ dquote ++ "active" ++ dquote ++ "
      take: $take
      skip: $skip
    ) {
      id
      chainId
      marketAddress
      predictor
      counterparty
      predictorNftTokenId
      counterpartyNftTokenId
      totalCollateral
      predictorCollateral
      counterpartyCollateral
      refCode
      status
      predictorWon
      settledAt
      predictions {
        conditionId
        outcomeYes
        chainId
        condition {
          id
          question
          shortName
          endTime
          resolver
          settled
          resolvedToYes
        }
      }
    }
  }
".

Definition PAGE_SIZE : nat := 100.

(** ["0x" + "0".repeat(64)] *)
Definition zeroRefCode : string :=
  "0x" ++ String.concat "" (repeat "0" 64).

(* ================================================================== *)
(** ** The action *)
(* ================================================================== *)

Section Action.
Context {RT : Runtime}.

(** Effectful code: the world is threaded, and kept when a call throws. *)
Definition M (A : Type) : Type := World -> World * Completion A.

Definition ret {A} (a : A) : M A := fun w => (w, Return a).

Definition throw {A} (e : Error) : M A := fun w => (w, Throw e).

Definition bind {A B} (m : M A) (k : A -> M B) : M B :=
  fun w =>
    match m w with
    | (w', Return a) => k a w'
    | (w', Throw e) => (w', Throw e)
    end.

Definition lift {A} (c : Completion A) : M A := fun w => (w, c).

(** [try { body } catch (e) { handler e }] *)
Definition try_catch {A} (body : M A) (handler : Error -> M A) : M A :=
  fun w =>
    match body w with
    | (w', Return a) => (w', Return a)
    | (w', Throw e) => handler e w'
    end.

Local Notation "x <- m ;; k" := (bind m (fun x => k))
  (at level 61, m at next level, right associativity).

Definition graphqlRequest (endpoint q : string) (vars : QueryVariables)
  : M PositionsResponse :=
  response <- fetch endpoint {| query := q; variables := vars |} ;;
  if negb (ok response)
  then throw (PlainError ("GraphQL request failed: " ++ statusText response))
  else
    body <- lift (json response) ;;
    match errors body with
    | Some errs =>
        throw (PlainError
                 ("GraphQL error: " ++
                  or_else (match errs with
                           | e :: _ => gql_message e
                           | [] => None
                           end) "Unknown error"))
    | None => ret (data body)
    end.

(** The request for the page that starts at [skip]. *)
Definition pageBody (env : Env) (skip : nat) : QueryVariables :=
  {| address := walletAddress env;
     q_chainId := CHAIN_ID_ETHEREAL;
     take := PAGE_SIZE;
     skip := skip |}.

Definition requestPage (env : Env) (skip : nat) : M PositionsResponse :=
  graphqlRequest (graphqlEndpoint env) CLAIMABLE_POSITIONS_QUERY (pageBody env skip).

(** The paging loop of the handler.  [while (true)] may run forever, so
    the loop takes [fuel]: [None] means the fuel ran out before a short
    page came. *)
Fixpoint readPositions (env : Env) (fuel : nat) (skip : nat)
  (acc : list ClaimablePosition) (w : World)
  : option (World * Completion (list ClaimablePosition)) :=
  match fuel with
  | O => None
  | S fuel' =>
      match requestPage env skip w with
      | (w', Throw e) => Some (w', Throw e)
      | (w', Return response) =>
          let page := positions response in
          let acc' := (acc ++ page)%list in
          if (length page <? PAGE_SIZE)%nat then Some (w', Return acc')
          else readPositions env fuel' (skip + PAGE_SIZE)%nat acc' w'
      end
  end.

(** The loop that fills [claimablePositions]. *)
Fixpoint collectClaimable (wallet : string) (ps : list ClaimablePosition)
  (claimablePositions : list Claimable) : Completion (list Claimable) :=
  match ps with
  | [] => Return claimablePositions
  | p :: rest =>
      match getClaimableInfo p wallet with
      | Throw e => Throw e
      | Return None => collectClaimable wallet rest claimablePositions
      | Return (Some info) =>
          collectClaimable wallet rest
            (claimablePositions ++
             [{| position := p;
                 c_tokenId := tokenId info;
                 c_isWinner := isWinner info;
                 c_winnings := winnings info;
                 c_marketName := marketName info |}])%list
      end
  end.

(** The arguments of [submitTransaction] for one burn. *)
Definition burnRequest (env : Env) (calldata : string) : SubmitArgs :=
  {| rpc := rpcUrl env;
     s_chainId := CHAIN_ID_ETHEREAL;
     s_privateKey := privateKey env;
     tx := {| to := marketContract env; data_hex := calldata; value := "0" |} |}.

(** [position.refCode ? position.refCode : zeroRefCode] *)
Definition refCodeOf (p : ClaimablePosition) : string :=
  match refCode p with
  | Some rc => if truthy rc then rc else zeroRefCode
  | None => zeroRefCode
  end.

(** The [try] block of one iteration of the claim loop. *)
Definition submitClaim (env : Env) (c : Claimable) : M ClaimResult :=
  let code := refCodeOf (position c) in
  id <- lift (BigInt (c_tokenId c)) ;;
  calldata <- lift (encodeFunctionData id code) ;;
  receipt <- submitTransaction (burnRequest env calldata) ;;
  ret {| r_tokenId := c_tokenId c;
         r_marketName := c_marketName c;
         r_winnings := formatEther (c_winnings c);
         txHash := Some (hash receipt);
         error := None |}.

(** The [catch] block of one iteration. *)
Definition recordFailure (c : Claimable) (e : Error) : M ClaimResult :=
  ret {| r_tokenId := c_tokenId c;
         r_marketName := c_marketName c;
         r_winnings := formatEther (c_winnings c);
         txHash := None;
         error := Some (error_message e) |}.

Definition claimPosition (env : Env) (c : Claimable) : M ClaimResult :=
  try_catch (submitClaim env c) (recordFailure c).

(** [for (const ... of winningPositions) { try ... catch ... }] *)
Fixpoint claimLoop (env : Env) (winningPositions : list Claimable)
  (rs : list ClaimResult) : M (list ClaimResult) :=
  match winningPositions with
  | [] => ret rs
  | c :: rest =>
      r <- claimPosition env c ;;
      claimLoop env rest (rs ++ [r])%list
  end.

(** [winningPositions.reduce((sum, p) => sum + p.winnings, BigInt(0))] *)
Definition sumWinnings (winningPositions : list Claimable) : Z :=
  fold_left (fun sum p => sum + c_winnings p) winningPositions 0.

Definition chooseText (successful failed : nat) : ResponseText :=
  if ((0 <? successful) && (failed =? 0))%nat then ClaimedSuccessfully
  else if ((0 <? successful) && (0 <? failed))%nat then PartialSuccess
  else FailedToClaim.

(** From the split into winners and losers to the final callback. *)
Definition claimAndReport (env : Env) (claimablePositions : list Claimable)
  : M Content :=
  let winningPositions := filter c_isWinner claimablePositions in
  let losingPositions := filter (fun p => negb (c_isWinner p)) claimablePositions in
  if (length winningPositions =? 0)%nat
  then ret (NoWinners (length claimablePositions) (length losingPositions))
  else
    let total := sumWinnings winningPositions in
    _ <- loadSdk ;;
    rs <- claimLoop env winningPositions [] ;;
    let successful := filter (fun r => truthy_opt (txHash r)) rs in
    let failed := filter (fun r => truthy_opt (error r)) rs in
    ret (Claimed
           {| success := (0 <? length successful)%nat;
              claimableCount := length claimablePositions;
              winningCount := length winningPositions;
              losingCount := length losingPositions;
              successfulClaims := length successful;
              failedClaims := length failed;
              totalWinnings := formatEther total;
              results := rs;
              responseText := chooseText (length successful) (length failed) |}).

(** The handler once all pages are read. *)
Definition reconcile (env : Env) (ps : list ClaimablePosition) : M Content :=
  if (length ps =? 0)%nat then ret NoActivePositions
  else
    claimablePositions <- lift (collectClaimable (walletAddress env) ps []) ;;
    if (length claimablePositions =? 0)%nat then ret (NoneSettled (length ps))
    else claimAndReport env claimablePositions.

Definition bindC {A B} (c : Completion A) (k : A -> Completion B) : Completion B :=
  match c with
  | Return a => k a
  | Throw e => Throw e
  end.

(** The five configuration reads that open the handler. *)
Definition loadEnv : Completion Env :=
  bindC getWalletAddress (fun wallet =>
  bindC getPrivateKey (fun key =>
  bindC getTradingRpcUrl (fun url =>
  bindC getTradingContractAddresses (fun contracts =>
  bindC getApiEndpoints (fun endpoints =>
  Return {| walletAddress := wallet;
            privateKey := key;
            rpcUrl := url;
            marketContract := PREDICTION_MARKET contracts;
            graphqlEndpoint := sapienceGraphql endpoints |}))))).

(** The handler: what it passes to the callback, [None] when the paging
    loop is still running after [fuel] requests. *)
Definition handler (fuel : nat) (w : World) : option (World * Content) :=
  match loadEnv with
  | Throw e => Some (w, ActionFailed (error_message e))
  | Return env =>
      match readPositions env fuel 0 [] w with
      | None => None
      | Some (w1, Throw e) => Some (w1, ActionFailed (error_message e))
      | Some (w1, Return ps) =>
          match reconcile env ps w1 with
          | (w2, Return content) => Some (w2, content)
          | (w2, Throw e) => Some (w2, ActionFailed (error_message e))
          end
      end
  end.

End Action.

Notation "x <- m ;; k" := (bind m (fun x => k))
  (at level 61, m at next level, right associativity).

(* ================================================================== *)
(** ** A scripted runtime *)
(* ================================================================== *)

(** An index that serves a fixed script of pages and a chain that answers
    through a policy; both keep a log of what they were asked. *)
Record Ledger : Type := {
  pending : list (list ClaimablePosition);
  requests : list RequestBody;
  submitted : list SubmitArgs
}.

Definition firstPage (l : Ledger) : list ClaimablePosition :=
  match pending l with
  | [] => []
  | page :: _ => page
  end.

Definition serve (endpoint : string) (body : RequestBody) (l : Ledger)
  : Ledger * Completion HttpResponse :=
  ({| pending := tl (pending l);
      requests := requests l ++ [body];
      submitted := submitted l |},
   Return {| ok := true;
             statusText := "OK";
             json := Return {| errors := None;
                               data := {| positions := firstPage l |} |} |}).

(** The chain sees the transactions submitted so far and the new one. *)
Definition Policy : Type := list SubmitArgs -> SubmitArgs -> Completion TxReceipt.

Definition submitWith (policy : Policy) (args : SubmitArgs) (l : Ledger)
  : Ledger * Completion TxReceipt :=
  ({| pending := pending l;
      requests := requests l;
      submitted := submitted l ++ [args] |},
   policy (submitted l) args).

Fixpoint all_hex (s : string) : bool :=
  match s with
  | EmptyString => true
  | String c r =>
      match digit_value 16 c with
      | Some _ => all_hex r
      | None => false
      end
  end.

(** [0x] followed by 64 hexadecimal digits. *)
Definition is_bytes32 (code : string) : bool :=
  match code with
  | String "0" (String "x" r) => (String.length r =? 64)%nat && all_hex r
  | _ => false
  end.

(** Readable stand-in for the ABI encoder; like viem it refuses a token
    id outside [uint256] and a referral code that is not 32 bytes. *)
Definition encodeBurn (id : Z) (code : string) : Completion string :=
  if negb ((0 <=? id) && (id <? 2 ^ 256))
  then Throw (PlainError "Number is not in safe 256-bit unsigned integer range.")
  else if negb (is_bytes32 code)
  then Throw (PlainError "Size of bytes does not match expected size (bytes32).")
  else Return ("burn(" ++ number_to_string id ++ "," ++ code ++ ")").

Fixpoint strip_trailing_zeros (s : string) : string :=
  match s with
  | EmptyString => EmptyString
  | String c r =>
      match strip_trailing_zeros r with
      | EmptyString => if (c =? "0")%char then EmptyString else String c EmptyString
      | r' => String c r'
      end
  end.

Definition padStart (n : nat) (s : string) : string :=
  String.concat "" (repeat "0" (n - String.length s)) ++ s.

(** viem's [formatUnits]. *)
Definition formatUnits (v : Z) (decimals : nat) : string :=
  let display := padStart decimals (number_to_string (Z.abs v)) in
  let cut := (String.length display - decimals)%nat in
  let integer := substring 0 cut display in
  let fraction := strip_trailing_zeros (substring cut decimals display) in
  (if v <? 0 then "-" else "")
  ++ (if truthy integer then integer else "0")
  ++ (if truthy fraction then "." ++ fraction else "").

Definition scripted (wallet : string) (policy : Policy) : Runtime :=
  {| World := Ledger;
     getWalletAddress := Return wallet;
     getPrivateKey := Return "0xkey";
     getTradingRpcUrl := Return "https://rpc.example";
     getTradingContractAddresses := Return {| PREDICTION_MARKET := "0xmarket" |};
     getApiEndpoints := Return {| sapienceGraphql := "https://index.example/graphql" |};
     CHAIN_ID_ETHEREAL := 5064014;
     fetch := serve;
     loadSdk := fun l => (l, Return tt);
     submitTransaction := submitWith policy;
     encodeFunctionData := encodeBurn;
     formatEther := fun v => formatUnits v 18 |}.

(** The constants the handler reads from the scripted runtime. *)
Definition sampleEnv : Env :=
  {| walletAddress := alice;
     privateKey := "0xkey";
     rpcUrl := "https://rpc.example";
     marketContract := "0xmarket";
     graphqlEndpoint := "https://index.example/graphql" |}.

Definition freshLedger (pages : list (list ClaimablePosition)) : Ledger :=
  {| pending := pages; requests := []; submitted := [] |}.

(** A chain on which every burn goes through. *)
Definition acceptAll : Policy :=
  fun _ args => Return {| hash := "0xtx:" ++ data_hex (tx args) |}.

(** A chain on which the burns of the listed call data revert. *)
Definition revertOn (bad : list string) : Policy :=
  fun _ args =>
    if existsb (String.eqb (data_hex (tx args))) bad
    then Throw (PlainError "execution reverted")
    else Return {| hash := "0xtx:" ++ data_hex (tx args) |}.

(** A position that the wallet [alice] wins as predictor. *)
Definition winnerOf (token total stake : string) : ClaimablePosition :=
  {| pos_id := 7; chainId := 5064014; marketAddress := "0xfeed";
     predictor := alice; counterparty := bob;
     predictorNftTokenId := token; counterpartyNftTokenId := "0";
     totalCollateral := total;
     predictorCollateral := Some stake; counterpartyCollateral := None;
     refCode := None; status := "active"; predictorWon := None;
     settledAt := None;
     predictions := [mkLeg true (Some (mkCondition true true))] |}.

(** Three winning positions with winnings 60, 30 and 10. *)
Definition threeWinners : list ClaimablePosition :=
  [winnerOf "11" "100" "40"; winnerOf "21" "50" "20"; winnerOf "31" "15" "5"].

(** The entry of [claimablePositions] for a position won as predictor. *)
Definition entryOf (p : ClaimablePosition) (amount : Z) : Claimable :=
  {| position := p;
     c_tokenId := predictorNftTokenId p;
     c_isWinner := true;
     c_winnings := amount;
     c_marketName := "Rain" |}.

Definition threeEntries : list Claimable :=
  [entryOf (winnerOf "11" "100" "40") 60;
   entryOf (winnerOf "21" "50" "20") 30;
   entryOf (winnerOf "31" "15" "5") 10].

(** The second of the three burns reverts. *)
Definition secondReverts : Policy :=
  revertOn ["burn(21," ++ zeroRefCode ++ ")"].

(** A position whose two sides are the same wallet, written in two
    letter cases, and whose predictor called the outcome wrong. *)
Definition selfTrade : ClaimablePosition :=
  mkPosition "0xAbC1" "0xabc1" "100" (Some "40") (Some "60")
    [mkLeg false (Some (mkCondition true true))].

(* ------------------------------------------------------------------ *)
(** *** Vocabulary for stating the properties of the claim loop *)

(** [r] is the result recorded for the winning position [c]: it carries
    the position's token id, label and formatted winnings, and either a
    transaction hash or an error message. *)
Definition ResultFor {RT : Runtime} (c : Claimable) (r : ClaimResult) : Prop :=
  r_tokenId r = c_tokenId c
  /\ r_marketName r = c_marketName c
  /\ r_winnings r = formatEther (c_winnings c)
  /\ ((exists h, txHash r = Some h /\ error r = None)
      \/ (exists m, txHash r = None /\ error r = Some m)).

(** The submission the loop makes for [c]: none when the token id is not
    an integer literal or the encoder refuses it. *)
Definition attempt {RT : Runtime} (env : Env) (c : Claimable) : list SubmitArgs :=
  match BigInt (c_tokenId c) with
  | Throw _ => []
  | Return id =>
      match encodeFunctionData id (refCodeOf (position c)) with
      | Throw _ => []
      | Return calldata => [burnRequest env calldata]
      end
  end.


(** The bodies of [n] consecutive page requests, the first at [start]. *)
Definition pageRequests {RT : Runtime} (env : Env) (start n : nat) : list RequestBody :=
  map (fun i => {| query := CLAIMABLE_POSITIONS_QUERY;
                   variables := pageBody env (start + i * PAGE_SIZE) |}) (seq 0 n).

(** The offsets asked for, in order. *)
Definition skipsOf (l : Ledger) : list nat :=
  map (fun b => skip (variables b)) (requests l).

(** The page sizes asked for, in order. *)
Definition takesOf (l : Ledger) : list nat :=
  map (fun b => take (variables b)) (requests l).

Definition FullPage (page : list ClaimablePosition) : Prop :=
  (PAGE_SIZE <= length page)%nat.

(* ================================================================== *)
(** ** The rest of the action: [validate] and a general index *)
(* ================================================================== *)

(** [s.includes(needle)] *)
Fixpoint includes (needle s : string) : bool :=
  prefix needle s
  || match s with
     | EmptyString => false
     | String _ r => includes needle r
     end.

(** The part of a [Memory] that [validate] reads. *)
Record MessageContent : Type := {
  text : option string
}.

Record Memory : Type := {
  content : option MessageContent
}.

(** [message.content?.text?.toLowerCase() || ""] *)
Definition messageText (message : Memory) : string :=
  or_else
    (option_map toLowerCase
       (match content message with
        | Some c => text c
        | None => None
        end))
    "".

Definition validate (message : Memory) : bool :=
  let t := messageText message in
  (includes "claim" t || includes "redeem" t || includes "collect" t
   || includes "withdraw" t)
  && (includes "winning" t || includes "profit" t || includes "reward" t).

(** A message that carries the text [t]. *)
Definition say (t : string) : Memory :=
  {| content := Some {| text := Some t |} |}.

(** The words [validate] looks for. *)
Definition claimVerbs : list string := ["claim"; "redeem"; "collect"; "withdraw"].
Definition claimNouns : list string := ["winning"; "profit"; "reward"].

(** [t] has [needle] as a substring. *)
Definition Contains (needle t : string) : Prop :=
  exists before after, t = before ++ needle ++ after.

(** An index that answers each request from the requests made so far and
    the request itself; the chain answers through a policy as before. *)
Definition IndexBehaviour : Type :=
  list RequestBody -> RequestBody -> Completion HttpResponse.

Definition serveWith (respond : IndexBehaviour) (endpoint : string)
  (body : RequestBody) (l : Ledger) : Ledger * Completion HttpResponse :=
  ({| pending := pending l;
      requests := requests l ++ [body];
      submitted := submitted l |},
   respond (requests l) body).

Definition indexed (respond : IndexBehaviour) (wallet : string) (policy : Policy)
  : Runtime :=
  {| World := Ledger;
     getWalletAddress := Return wallet;
     getPrivateKey := Return "0xkey";
     getTradingRpcUrl := Return "https://rpc.example";
     getTradingContractAddresses := Return {| PREDICTION_MARKET := "0xmarket" |};
     getApiEndpoints := Return {| sapienceGraphql := "https://index.example/graphql" |};
     CHAIN_ID_ETHEREAL := 5064014;
     fetch := serveWith respond;
     loadSdk := fun l => (l, Return tt);
     submitTransaction := submitWith policy;
     encodeFunctionData := encodeBurn;
     formatEther := fun v => formatUnits v 18 |}.

(** A reply that carries one page and no errors. *)
Definition okPage (page : list ClaimablePosition) : HttpResponse :=
  {| ok := true;
     statusText := "OK";
     json := Return {| errors := None; data := {| positions := page |} |} |}.

(** An index that holds [dataset] and honours [take] and [skip]. *)
Definition sliceOf (dataset : list ClaimablePosition) : IndexBehaviour :=
  fun _ body =>
    Return (okPage (firstn (take (variables body))
                      (skipn (skip (variables body)) dataset))).

(** An index that serves full pages of [filler] and answers its request
    number [k] (counted from 0) with the HTTP status [reason]. *)
Definition failingAt (k : nat) (reason : string) (filler : ClaimablePosition)
  : IndexBehaviour :=
  fun history _ =>
    if (length history =? k)%nat
    then Return {| ok := false; statusText := reason;
                   json := Throw (PlainError "Unexpected end of JSON input") |}
    else Return (okPage (repeat filler PAGE_SIZE)).

(** The same position as [scenarioA] with a total that is no integer
    literal. *)
Definition malformed : ClaimablePosition :=
  mkPosition alice bob "1e3" (Some "40") (Some "60")
    [mkLeg true (Some (mkCondition true true))].

(** A position whose predictor never stated a stake. *)
Definition noStake : ClaimablePosition :=
  mkPosition alice bob "100" None (Some "100")
    [mkLeg true (Some (mkCondition true true))].

(** The [ClaimableInfo] an entry of [claimablePositions] was built from. *)
Definition infoOf (c : Claimable) : ClaimableInfo :=
  {| tokenId := c_tokenId c;
     isWinner := c_isWinner c;
     winnings := c_winnings c;
     marketName := c_marketName c |}.

(** The winning entries among the positions read, none when the
    collection loop throws. *)
Definition winnersRead (wallet : string) (ps : list ClaimablePosition)
  : list Claimable :=
  match collectClaimable wallet ps [] with
  | Return cs => filter c_isWinner cs
  | Throw _ => []
  end.

(** The constants the handler reads from the scripted and the indexed
    runtime of [wallet]. *)
Definition envOf (wallet : string) : Env :=
  {| walletAddress := wallet;
     privateKey := "0xkey";
     rpcUrl := "https://rpc.example";
     marketContract := "0xmarket";
     graphqlEndpoint := "https://index.example/graphql" |}.

(** The ledger after the request for the page at [skip] was logged. *)
Definition afterRequest {RT : Runtime} (env : Env) (skip : nat) (l : Ledger) : Ledger :=
  {| pending := pending l;
     requests := requests l ++
                 [{| query := CLAIMABLE_POSITIONS_QUERY;
                     variables := pageBody env skip |}];
     submitted := submitted l |}.

(** A runtime whose private key is not configured. *)
Definition unconfigured (wallet : string) (policy : Policy) : Runtime :=
  {| World := Ledger;
     getWalletAddress := Return wallet;
     getPrivateKey := Throw (PlainError "PRIVATE_KEY is not set");
     getTradingRpcUrl := Return "https://rpc.example";
     getTradingContractAddresses := Return {| PREDICTION_MARKET := "0xmarket" |};
     getApiEndpoints := Return {| sapienceGraphql := "https://index.example/graphql" |};
     CHAIN_ID_ETHEREAL := 5064014;
     fetch := serve;
     loadSdk := fun l => (l, Return tt);
     submitTransaction := submitWith policy;
     encodeFunctionData := encodeBurn;
     formatEther := fun v => formatUnits v 18 |}.

(* ------------------------------------------------------------------ *)
(** *** What the claim loop is expected to do *)

(** The outcome of trying to burn the token of [c]: the hash the chain
    returned, or what was thrown on the way (by [BigInt], by the encoder
    or by the submission). *)
Definition burnOutcome {RT : Runtime} (env : Env) (c : Claimable) (w : World)
  : World * Completion string :=
  match BigInt (c_tokenId c) with
  | Throw e => (w, Throw e)
  | Return id =>
      match encodeFunctionData id (refCodeOf (position c)) with
      | Throw e => (w, Throw e)
      | Return calldata =>
          match submitTransaction (burnRequest env calldata) w with
          | (w', Return receipt) => (w', Return (hash receipt))
          | (w', Throw e) => (w', Throw e)
          end
      end
  end.

(** The outcomes of trying the winners one after the other, each from
    the world the one before it left, whether that one succeeded or not. *)
Fixpoint burnTrace {RT : Runtime} (env : Env) (winners : list Claimable) (w : World)
  : World * list (Completion string) :=
  match winners with
  | [] => (w, [])
  | c :: rest =>
      let o := burnOutcome env c w in
      let t := burnTrace env rest (fst o) in
      (fst t, snd o :: snd t)
  end.

(** The result to record for [c] after the outcome [o]: the hash of a
    success, the message of a failure. *)
Definition recordOf {RT : Runtime} (c : Claimable) (o : Completion string)
  : ClaimResult :=
  {| r_tokenId := c_tokenId c;
     r_marketName := c_marketName c;
     r_winnings := formatEther (c_winnings c);
     txHash := match o with Return h => Some h | Throw _ => None end;
     error := match o with Return _ => None | Throw e => Some (error_message e) end |}.

Definition recordAll {RT : Runtime} (winners : list Claimable)
  (os : list (Completion string)) : list ClaimResult :=
  map (fun co => recordOf (fst co) (snd co)) (combine winners os).


Definition failed (o : Completion string) : bool :=
  match o with Return _ => false | Throw _ => true end.


(** A runtime that logs what it is asked, for any configuration, index,
    encoder, formatter and chain. *)
Definition logging (cfg : Env) (chain : Z) (respond : IndexBehaviour)
  (encode : Z -> string -> Completion string) (format : Z -> string)
  (policy : Policy) : Runtime :=
  {| World := Ledger;
     getWalletAddress := Return (walletAddress cfg);
     getPrivateKey := Return (privateKey cfg);
     getTradingRpcUrl := Return (rpcUrl cfg);
     getTradingContractAddresses :=
       Return {| PREDICTION_MARKET := marketContract cfg |};
     getApiEndpoints := Return {| sapienceGraphql := graphqlEndpoint cfg |};
     CHAIN_ID_ETHEREAL := chain;
     fetch := serveWith respond;
     loadSdk := fun l => (l, Return tt);
     submitTransaction := submitWith policy;
     encodeFunctionData := encode;
     formatEther := format |}.

(** The call data of the transactions submitted, in order. *)
Definition burnsOf (l : Ledger) : list string :=
  map (fun a => data_hex (tx a)) (submitted l).

(* ================================================================== *)
(** ** [BigInt] on decimal numerals *)
(* ================================================================== *)

Ltac each_digit d H :=
  do 10 (destruct d as [|d]; [try reflexivity|]);
  exfalso; clear - H; lia.

Lemma digit_not_white_space (d : nat) :
  (d < 10)%nat -> is_white_space (digit_char d) = false.
Proof. intros H. each_digit d H. Qed.

Lemma digit_value_decimal (d : nat) :
  (d < 10)%nat -> digit_value 10 (digit_char d) = Some (Z.of_nat d).
Proof. intros H. each_digit d H. Qed.

Lemma trim_start_numeral (ds : list nat) :
  Forall (fun d => (d < 10)%nat) ds -> trim_start (numeral ds) = numeral ds.
Proof.
  intros Hds. destruct Hds as [|d rest Hd _]; [reflexivity|].
  cbn [numeral trim_start]. rewrite (digit_not_white_space d Hd). reflexivity.
Qed.

Lemma trim_end_numeral (ds : list nat) :
  Forall (fun d => (d < 10)%nat) ds -> trim_end (numeral ds) = numeral ds.
Proof.
  induction 1 as [|d rest Hd _ IH]; [reflexivity|].
  cbn [numeral trim_end]. rewrite IH, (digit_not_white_space d Hd).
  destruct (numeral rest); reflexivity.
Qed.

Lemma parse_digits_numeral (ds : list nat) :
  Forall (fun d => (d < 10)%nat) ds ->
  forall acc, parse_digits 10 (numeral ds) acc = Some (horner ds acc).
Proof.
  induction 1 as [|d rest Hd _ IH]; intros acc; [reflexivity|].
  cbn [numeral parse_digits horner].
  rewrite (digit_value_decimal d Hd). apply IH.
Qed.

(** A text that starts with a decimal digit followed by nothing or by
    another decimal digit is read as a decimal literal. *)
Lemma dispatch_decimal (d : nat) (rest : list nat) :
  (d < 10)%nat -> Forall (fun d => (d < 10)%nat) rest ->
  match numeral (d :: rest) with
  | EmptyString => Some 0
  | String "0" (String "x" r) | String "0" (String "X" r) => parse_number 16 r
  | String "0" (String "o" r) | String "0" (String "O" r) => parse_number 8 r
  | String "0" (String "b" r) | String "0" (String "B" r) => parse_number 2 r
  | String "+" r => parse_number 10 r
  | String "-" r => option_map Z.opp (parse_number 10 r)
  | t => parse_number 10 t
  end = parse_number 10 (numeral (d :: rest)).
Proof.
  intros Hd Hrest.
  destruct rest as [|d' rest'].
  - each_digit d Hd.
  - assert (Hd' : (d' < 10)%nat) by (inversion Hrest; assumption).
    destruct d as [|d].
    + each_digit d' Hd'.
    + do 9 (destruct d as [|d]; [reflexivity|]). exfalso. lia.
Qed.

(** Every non-empty text of decimal digits is an integer literal, and
    [StringToBigInt] reads exactly the integer it denotes. *)
Lemma StringToBigInt_numeral (ds : list nat) :
  ds <> [] -> Forall (fun d => (d < 10)%nat) ds ->
  StringToBigInt (numeral ds) = Some (horner ds 0).
Proof.
  intros Hne Hds. unfold StringToBigInt, trim.
  rewrite (trim_start_numeral ds Hds), (trim_end_numeral ds Hds).
  destruct ds as [|d rest]; [congruence|].
  inversion Hds as [|? ? Hd Hrest]; subst.
  rewrite (dispatch_decimal d rest Hd Hrest).
  cbn [numeral parse_number].
  exact (parse_digits_numeral (d :: rest) Hds 0).
Qed.

Example numeral_100 : numeral [1; 0; 0]%nat = "100" /\ horner [1; 0; 0]%nat 0 = 100.
Proof. split; reflexivity. Qed.
(* ================================================================== *)
(** ** Properties of the evaluator *)
(* ================================================================== *)

Lemma leg_won_correct (pred : PredictionInfo) :
  leg_won pred = true <-> LegCorrect pred.
Proof.
  unfold leg_won, LegCorrect. destruct (condition pred) as [c|].
  - destruct (settled c) eqn:Hs; simpl.
    + rewrite Bool.eqb_true_iff. split.
      * intros H. exists c. auto.
      * intros (c' & Hc & _ & H). injection Hc as <-. exact H.
    + split; [discriminate|].
      intros (c' & Hc & Hs' & _). injection Hc as <-. congruence.
  - split; [discriminate|]. intros (c' & Hc & _). discriminate.
Qed.

Lemma leg_settled_correct (pred : PredictionInfo) :
  leg_settled pred = true <-> LegSettled pred.
Proof.
  unfold leg_settled, LegSettled. destruct (condition pred) as [c|].
  - rewrite Bool.eqb_true_iff. split.
    + intros H. exists c. auto.
    + intros (c' & Hc & H). injection Hc as <-. exact H.
  - split; [discriminate|]. intros (c' & Hc & _). discriminate.
Qed.

Lemma leg_won_settled (pred : PredictionInfo) :
  leg_won pred = true -> leg_settled pred = true.
Proof.
  unfold leg_won, leg_settled. destruct (condition pred) as [c|]; [|auto].
  destruct (settled c); simpl; auto.
Qed.

Lemma length_zero_iff_nil {A} (l : list A) :
  (length l =? 0)%nat = true <-> l = [].
Proof. destruct l; simpl; split; congruence. Qed.

Lemma areAllConditionsSettled_iff (position : ClaimablePosition) :
  areAllConditionsSettled position = true <->
  predictions position <> [] /\ Forall LegSettled (predictions position).
Proof.
  unfold areAllConditionsSettled.
  destruct (predictions position) as [|pred legs] eqn:E; simpl.
  - split; [discriminate | intros [H _]; congruence].
  - change (leg_settled pred && forallb leg_settled legs)
      with (forallb leg_settled (pred :: legs)).
    rewrite forallb_forall, Forall_forall. split.
    + intros H. split; [discriminate|].
      intros x Hx. apply leg_settled_correct, H, Hx.
    + intros [_ H] x Hx. apply leg_settled_correct, H, Hx.
Qed.

Lemma gating_fail_returns_nothing (position : ClaimablePosition) (walletAddress : string) :
  passes_gating position walletAddress = false ->
  getClaimableInfo position walletAddress = Return None.
Proof.
  unfold passes_gating, is_predictor, is_counterparty, getClaimableInfo.
  destruct (toLowerCase (predictor position) =? toLowerCase walletAddress)%string;
    destruct (toLowerCase (counterparty position) =? toLowerCase walletAddress)%string;
    destruct (status position =? "active")%string;
    destruct (areAllConditionsSettled position); simpl; congruence.
Qed.

(** What [getClaimableInfo] returns once the gating is passed and both
    amounts are integer literals. *)
Lemma getClaimableInfo_claimable (position : ClaimablePosition)
  (walletAddress : string) (total stake : Z) :
  passes_gating position walletAddress = true ->
  StringToBigInt (totalCollateral position) = Some total ->
  StringToBigInt (caller_stake position walletAddress) = Some stake ->
  getClaimableInfo position walletAddress =
  Return (Some {| tokenId := caller_token position walletAddress;
                  isWinner := caller_wins position walletAddress;
                  winnings := if caller_wins position walletAddress
                              then total - stake else 0;
                  marketName := market_label position |}).
Proof.
  unfold passes_gating, caller_stake, caller_wins, caller_token,
    is_predictor, is_counterparty, getClaimableInfo, BigInt.
  intros Hg Ht Hs. rewrite Ht.
  destruct (toLowerCase (predictor position) =? toLowerCase walletAddress)%string;
    destruct (toLowerCase (counterparty position) =? toLowerCase walletAddress)%string;
    destruct (status position =? "active")%string;
    destruct (areAllConditionsSettled position); simpl in *;
    try discriminate; rewrite Hs; reflexivity.
Qed.

Lemma didPredictorWin_spec (position : ClaimablePosition) :
  (didPredictorWin position = true <->
   predictions position <> [] /\ Forall LegCorrect (predictions position))
  /\ (forall pred, In pred (predictions position) -> ~ LegCorrect pred ->
                   didPredictorWin position = false).
Proof.
  assert (Hiff : didPredictorWin position = true <->
            predictions position <> [] /\ Forall LegCorrect (predictions position)).
  { unfold didPredictorWin.
    destruct (predictions position) as [|pred legs] eqn:E.
    - simpl. split; [discriminate | intros [H _]; congruence].
    - change ((length (pred :: legs) =? 0)%nat) with false. cbv iota.
      rewrite forallb_forall, Forall_forall. split.
      + intros H. split; [discriminate|].
        intros x Hx. apply leg_won_correct, H, Hx.
      + intros [_ H] x Hx. apply leg_won_correct, H, Hx. }
  split; [exact Hiff|].
  intros pred Hin Hbad.
  apply Bool.not_true_is_false. intros Hw.
  apply Hbad. apply Hiff in Hw. destruct Hw as [_ Hall].
  rewrite Forall_forall in Hall. apply Hall, Hin.
Qed.

(** C3: [didPredictorWin] is true exactly when the position has a leg and
    every leg's condition is settled and resolved to the leg's predicted
    outcome; one leg that is unsettled or mismatched makes it false. *)
Theorem didPredictorWin_iff (position : ClaimablePosition) :
  (didPredictorWin position = true <->
   predictions position <> [] /\ Forall LegCorrect (predictions position))
  /\ (forall pred, In pred (predictions position) -> ~ LegCorrect pred ->
                   didPredictorWin position = false).
Proof. exact (didPredictorWin_spec position). Qed.

Lemma didPredictorWin_iff_witness :
  didPredictorWin scenarioA = true.
Proof.
  apply (proj1 (didPredictorWin_iff scenarioA)). split.
  - discriminate.
  - repeat constructor. exists (mkCondition true true). repeat split.
Defined.

Lemma passes_gating_spec (position : ClaimablePosition) (walletAddress : string) :
  passes_gating position walletAddress = true <->
  (toLowerCase (predictor position) = toLowerCase walletAddress
   \/ toLowerCase (counterparty position) = toLowerCase walletAddress)
  /\ status position = "active"
  /\ areAllConditionsSettled position = true.
Proof.
  unfold passes_gating, is_predictor, is_counterparty.
  rewrite !Bool.andb_true_iff, Bool.orb_true_iff, !String.eqb_eq. tauto.
Qed.

Lemma collectClaimable_skip (wallet : string) (p : ClaimablePosition) :
  getClaimableInfo p wallet = Return None ->
  forall before after acc,
    collectClaimable wallet (before ++ p :: after)%list acc =
    collectClaimable wallet (before ++ after)%list acc.
Proof.
  intros Hp before after. induction before as [|q before IH]; intros acc; simpl.
  - rewrite Hp. reflexivity.
  - destruct (getClaimableInfo q wallet) as [[info|]|e]; auto.
Qed.

(** C4: a position that fails one of the three gating checks (caller is
    neither party, status is not active, not all conditions settled) makes
    [getClaimableInfo] return nothing, without an error, and the handler's
    collection loop passes over it. *)
Theorem gating_is_silent (position : ClaimablePosition) (walletAddress : string) :
  ~ ((toLowerCase (predictor position) = toLowerCase walletAddress
      \/ toLowerCase (counterparty position) = toLowerCase walletAddress)
     /\ status position = "active"
     /\ areAllConditionsSettled position = true) ->
  getClaimableInfo position walletAddress = Return None
  /\ forall before after acc,
       collectClaimable walletAddress (before ++ position :: after)%list acc =
       collectClaimable walletAddress (before ++ after)%list acc.
Proof.
  intros Hfail.
  assert (Hnone : getClaimableInfo position walletAddress = Return None).
  { apply gating_fail_returns_nothing. apply Bool.not_true_is_false.
    intros Hg. apply Hfail, passes_gating_spec, Hg. }
  split; [exact Hnone|]. apply collectClaimable_skip, Hnone.
Qed.

(** Scenario B of the design: the single condition is not settled yet. *)
Lemma gating_is_silent_witness :
  getClaimableInfo
    (mkPosition alice bob "100" (Some "40") (Some "60")
       [mkLeg true (Some (mkCondition false true))]) alice = Return None.
Proof.
  apply (gating_is_silent
           (mkPosition alice bob "100" (Some "40") (Some "60")
              [mkLeg true (Some (mkCondition false true))]) alice).
  intros (_ & _ & H). vm_compute in H. discriminate H.
Defined.

(** C2: past the gating, with the caller on exactly one side, the caller
    is reported winner iff it is the predictor and the predictor won, or
    the counterparty and the predictor lost; a winner's winnings are
    totalCollateral minus the caller's own stake as exact integers, and a
    non-winner's winnings are zero. *)
Theorem getClaimableInfo_winner_and_winnings (position : ClaimablePosition)
  (walletAddress : string) (total stake : Z) :
  passes_gating position walletAddress = true ->
  is_predictor position walletAddress = negb (is_counterparty position walletAddress) ->
  StringToBigInt (totalCollateral position) = Some total ->
  StringToBigInt (caller_stake position walletAddress) = Some stake ->
  exists info,
    getClaimableInfo position walletAddress = Return (Some info)
    /\ (isWinner info = true <->
        (is_predictor position walletAddress = true
         /\ didPredictorWin position = true)
        \/ (is_counterparty position walletAddress = true
            /\ didPredictorWin position = false))
    /\ (isWinner info = true -> winnings info = total - stake)
    /\ (isWinner info = false -> winnings info = 0).
Proof.
  intros Hg Hside Ht Hs.
  rewrite (getClaimableInfo_claimable position walletAddress total stake Hg Ht Hs).
  eexists. split; [reflexivity|]. cbn [isWinner winnings].
  unfold caller_wins.
  destruct (is_predictor position walletAddress);
    destruct (is_counterparty position walletAddress);
    destruct (didPredictorWin position); simpl in *; try discriminate;
    repeat split; intros; try discriminate; try reflexivity; auto;
    try (destruct H as [[? ?]|[? ?]]; discriminate).
Qed.

(** Scenario A of the design: claimable, winner, winnings 100 - 40 = 60. *)
Lemma getClaimableInfo_winner_and_winnings_witness :
  exists info,
    getClaimableInfo scenarioA alice = Return (Some info)
    /\ isWinner info = true /\ winnings info = 60.
Proof.
  destruct (getClaimableInfo_winner_and_winnings scenarioA alice 100 40)
    as (info & Hret & Hwin & Hamount & _);
    [reflexivity | reflexivity | reflexivity | reflexivity |].
  exists info. split; [exact Hret|].
  assert (Hw : isWinner info = true).
  { apply Hwin. left. split; reflexivity. }
  split; [exact Hw | exact (Hamount Hw)].
Defined.

(** C8: when the stakes are non-negative and add up to the total
    collateral, the winnings of every claimable position are non-negative,
    and zero for a caller that is not the winner. *)
Theorem winnings_nonnegative (position : ClaimablePosition)
  (walletAddress : string) (total p c : Z) :
  passes_gating position walletAddress = true ->
  StringToBigInt (totalCollateral position) = Some total ->
  StringToBigInt (or_else (predictorCollateral position) "0") = Some p ->
  StringToBigInt (or_else (counterpartyCollateral position) "0") = Some c ->
  0 <= p -> 0 <= c -> total = p + c ->
  exists info,
    getClaimableInfo position walletAddress = Return (Some info)
    /\ 0 <= winnings info
    /\ (isWinner info = false -> winnings info = 0).
Proof.
  intros Hg Ht Hp Hc Hp0 Hc0 Hsum.
  assert (Hs : StringToBigInt (caller_stake position walletAddress)
               = Some (if is_predictor position walletAddress then p else c)).
  { unfold caller_stake. destruct (is_predictor position walletAddress); assumption. }
  rewrite (getClaimableInfo_claimable position walletAddress total _ Hg Ht Hs).
  eexists. split; [reflexivity|]. cbn [isWinner winnings].
  destruct (caller_wins position walletAddress).
  - split; [|discriminate].
    destruct (is_predictor position walletAddress); lia.
  - split; [lia | reflexivity].
Qed.

Lemma winnings_nonnegative_witness :
  exists info,
    getClaimableInfo scenarioA bob = Return (Some info)
    /\ 0 <= winnings info
    /\ (isWinner info = false -> winnings info = 0).
Proof.
  apply (winnings_nonnegative scenarioA bob 100 40 60);
    try reflexivity; lia.
Defined.

(** C10: when the caller is both predictor and counterparty, the caller
    is handled as the predictor (its token id, its stake) and is reported
    winner whether or not the predictor won. *)
Theorem caller_on_both_sides (position : ClaimablePosition)
  (walletAddress : string) (total stake : Z) :
  passes_gating position walletAddress = true ->
  toLowerCase (predictor position) = toLowerCase walletAddress ->
  toLowerCase (counterparty position) = toLowerCase walletAddress ->
  StringToBigInt (totalCollateral position) = Some total ->
  StringToBigInt (or_else (predictorCollateral position) "0") = Some stake ->
  getClaimableInfo position walletAddress =
  Return (Some {| tokenId := predictorNftTokenId position;
                  isWinner := true;
                  winnings := total - stake;
                  marketName := market_label position |}).
Proof.
  intros Hg Hp Hc Ht Hs.
  assert (HP : is_predictor position walletAddress = true)
    by (unfold is_predictor; apply String.eqb_eq, Hp).
  assert (HC : is_counterparty position walletAddress = true)
    by (unfold is_counterparty; apply String.eqb_eq, Hc).
  assert (Hs' : StringToBigInt (caller_stake position walletAddress) = Some stake)
    by (unfold caller_stake; rewrite HP; exact Hs).
  rewrite (getClaimableInfo_claimable position walletAddress total stake Hg Ht Hs').
  unfold caller_token, caller_wins. rewrite HP, HC.
  destruct (didPredictorWin position); reflexivity.
Qed.

Lemma caller_on_both_sides_witness :
  didPredictorWin selfTrade = false
  /\ getClaimableInfo selfTrade "0xABC1" =
     Return (Some {| tokenId := "11"; isWinner := true; winnings := 60;
                     marketName := "Rain" |}).
Proof.
  split; [reflexivity|].
  apply (caller_on_both_sides selfTrade "0xABC1" 100 40); reflexivity.
Defined.

(** C6: a position without legs is neither settled nor won by the
    predictor, and no wallet can claim it. *)
Theorem zero_legs_never_claimable (position : ClaimablePosition) :
  predictions position = [] ->
  areAllConditionsSettled position = false
  /\ didPredictorWin position = false
  /\ forall walletAddress, getClaimableInfo position walletAddress = Return None.
Proof.
  intros Hnil.
  assert (Hs : areAllConditionsSettled position = false)
    by (unfold areAllConditionsSettled; rewrite Hnil; reflexivity).
  split; [exact Hs|]. split.
  - unfold didPredictorWin. rewrite Hnil. reflexivity.
  - intros walletAddress. apply gating_fail_returns_nothing.
    unfold passes_gating. rewrite Hs. apply Bool.andb_false_r.
Qed.

Lemma zero_legs_never_claimable_witness :
  areAllConditionsSettled (mkPosition alice bob "100" (Some "40") (Some "60") []) = false
  /\ didPredictorWin (mkPosition alice bob "100" (Some "40") (Some "60") []) = false
  /\ forall walletAddress,
       getClaimableInfo (mkPosition alice bob "100" (Some "40") (Some "60") [])
         walletAddress = Return None.
Proof.
  apply (zero_legs_never_claimable
           (mkPosition alice bob "100" (Some "40") (Some "60") [])).
  reflexivity.
Defined.

(** C9: a leg whose condition object is null counts as unsettled: the
    position is neither settled nor won, and [getClaimableInfo] returns
    nothing for every wallet, without throwing. *)
Theorem missing_condition_excluded (position : ClaimablePosition)
  (pred : PredictionInfo) :
  In pred (predictions position) ->
  condition pred = None ->
  areAllConditionsSettled position = false
  /\ didPredictorWin position = false
  /\ forall walletAddress, getClaimableInfo position walletAddress = Return None.
Proof.
  intros Hin Hnull.
  assert (Hs : areAllConditionsSettled position = false).
  { apply Bool.not_true_is_false. intros H.
    apply areAllConditionsSettled_iff in H. destruct H as [_ Hall].
    rewrite Forall_forall in Hall. destruct (Hall pred Hin) as (c & Hc & _).
    congruence. }
  split; [exact Hs|]. split.
  - apply (proj2 (didPredictorWin_spec position) pred Hin).
    intros (c & Hc & _). congruence.
  - intros walletAddress. apply gating_fail_returns_nothing.
    unfold passes_gating. rewrite Hs. apply Bool.andb_false_r.
Qed.

Lemma missing_condition_excluded_witness :
  areAllConditionsSettled
    (mkPosition alice bob "100" (Some "40") (Some "60")
       [mkLeg true (Some (mkCondition true true)); mkLeg true None]) = false.
Proof.
  apply (missing_condition_excluded
           (mkPosition alice bob "100" (Some "40") (Some "60")
              [mkLeg true (Some (mkCondition true true)); mkLeg true None])
           (mkLeg true None)).
  - right. left. reflexivity.
  - reflexivity.
Defined.

(* ================================================================== *)
(** ** Properties of the paging loop *)
(* ================================================================== *)

Section Reader.
Context {RT : Runtime}.
Variable env : Env.

Lemma readPositions_short fuel skip acc w w' response :
  requestPage env skip w = (w', Return response) ->
  (length (positions response) < PAGE_SIZE)%nat ->
  readPositions env (S fuel) skip acc w =
  Some (w', Return (acc ++ positions response)%list).
Proof.
  intros Hreq Hlen. simpl. rewrite Hreq.
  apply Nat.ltb_lt in Hlen. rewrite Hlen. reflexivity.
Qed.

Lemma readPositions_full fuel skip acc w w' response :
  requestPage env skip w = (w', Return response) ->
  (PAGE_SIZE <= length (positions response))%nat ->
  readPositions env (S fuel) skip acc w =
  readPositions env fuel (skip + PAGE_SIZE) (acc ++ positions response)%list w'.
Proof.
  intros Hreq Hlen. simpl. rewrite Hreq.
  apply Nat.ltb_ge in Hlen. rewrite Hlen. reflexivity.
Qed.

Lemma readPositions_throw fuel skip acc w w' e :
  requestPage env skip w = (w', Throw e) ->
  readPositions env (S fuel) skip acc w = Some (w', Throw e).
Proof. intros Hreq. simpl. rewrite Hreq. reflexivity. Qed.

End Reader.

Section ScriptedReader.
Variable wallet : string.
Variable policy : Policy.
Variable env : Env.

Local Abbreviation RT := (scripted wallet policy).

Lemma scripted_requestPage (skip : nat) (l : Ledger) :
  requestPage (RT := RT) env skip l =
  ({| pending := tl (pending l);
      requests := (requests l ++
                   [{| query := CLAIMABLE_POSITIONS_QUERY;
                       variables := pageBody (RT := RT) env skip |}])%list;
      submitted := submitted l |},
   Return {| positions := firstPage l |}).
Proof. reflexivity. Qed.

Lemma pageRequests_succ (start n : nat) :
  pageRequests (RT := RT) env start (S n) =
  {| query := CLAIMABLE_POSITIONS_QUERY;
     variables := pageBody (RT := RT) env start |}
  :: pageRequests (RT := RT) env (start + PAGE_SIZE) n.
Proof.
  unfold pageRequests. rewrite <- cons_seq. cbn [map].
  rewrite <- seq_shift, map_map. f_equal.
  - do 2 f_equal. lia.
  - apply map_ext. intros i. do 2 f_equal. lia.
Qed.

(** Full pages keep the loop going; the first short page ends it.  The
    page served once the script is used up is the empty one. *)
Lemma scripted_read (full : list (list ClaimablePosition)) :
  forall rest fuel skip acc l,
    Forall FullPage full ->
    (length (hd [] rest) < PAGE_SIZE)%nat ->
    pending l = (full ++ rest)%list ->
    (length full < fuel)%nat ->
    readPositions (RT := RT) env fuel skip acc l =
    Some ({| pending := tl rest;
             requests := (requests l
                          ++ pageRequests (RT := RT) env skip (S (length full)))%list;
             submitted := submitted l |},
          Return (acc ++ concat full ++ hd [] rest)%list).
Proof.
  induction full as [|page full IH]; intros rest fuel skip acc l Hfull Hshort Hp Hfuel.
  - destruct fuel as [|fuel]; [inversion Hfuel|].
    simpl in Hp.
    assert (Hfirst : firstPage l = hd [] rest)
      by (unfold firstPage; rewrite Hp; destruct rest; reflexivity).
    rewrite (readPositions_short (RT := RT) env fuel skip acc l _ _ (scripted_requestPage skip l)).
    + cbn [positions]. rewrite Hfirst, Hp.
      rewrite pageRequests_succ. reflexivity.
    + cbn [positions]. rewrite Hfirst. exact Hshort.
  - destruct fuel as [|fuel]; [inversion Hfuel|].
    inversion Hfull as [|? ? Hpage Hfull']; subst.
    assert (Hfirst : firstPage l = page)
      by (unfold firstPage; rewrite Hp; reflexivity).
    rewrite (readPositions_full (RT := RT) env fuel skip acc l _ _ (scripted_requestPage skip l)).
    + cbn [positions]. rewrite Hfirst.
      rewrite (IH rest fuel (skip + PAGE_SIZE)%nat (acc ++ page)%list _ Hfull' Hshort).
      * cbn [requests submitted pending length concat].
        rewrite (pageRequests_succ skip (S (length full))).
        rewrite <- !app_assoc. reflexivity.
      * cbn [pending]. rewrite Hp. reflexivity.
      * simpl in Hfuel. lia.
    + cbn [positions]. rewrite Hfirst. exact Hpage.
Qed.

(** While only full pages have been served the loop is still running. *)
Lemma scripted_read_running (full : list (list ClaimablePosition)) :
  forall rest fuel skip acc l,
    Forall FullPage full ->
    pending l = (full ++ rest)%list ->
    (fuel <= length full)%nat ->
    readPositions (RT := RT) env fuel skip acc l = None.
Proof.
  induction full as [|page full IH]; intros rest fuel skip acc l Hfull Hp Hfuel.
  - simpl in Hfuel. assert (fuel = 0%nat) by lia. subst. reflexivity.
  - destruct fuel as [|fuel]; [reflexivity|].
    inversion Hfull as [|? ? Hpage Hfull']; subst.
    assert (Hfirst : firstPage l = page)
      by (unfold firstPage; rewrite Hp; reflexivity).
    rewrite (readPositions_full (RT := RT) env fuel skip acc l _ _ (scripted_requestPage skip l)).
    + apply (IH rest); [exact Hfull' | cbn [pending]; rewrite Hp; reflexivity
                       | simpl in Hfuel; lia].
    + cbn [positions]. rewrite Hfirst. exact Hpage.
Qed.

End ScriptedReader.

(** C5: the reader asks for pages of 100, goes on after every full page
    and stops at the first page shorter than 100, returning all pages
    joined: sizes 100, 100, 37 give three requests and 237 positions;
    after sizes 100, 100, 100 a fourth request is made. *)
Theorem paging_stops_at_first_short_page (wallet : string) (policy : Policy)
  (env : Env) :
  PAGE_SIZE = 100%nat
  /\ (forall full short more fuel,
        Forall FullPage full ->
        (length short < PAGE_SIZE)%nat ->
        ((fuel <= length full)%nat ->
         readPositions (RT := scripted wallet policy) env fuel 0 []
           (freshLedger (full ++ short :: more)) = None)
        /\ ((length full < fuel)%nat ->
            readPositions (RT := scripted wallet policy) env fuel 0 []
              (freshLedger (full ++ short :: more)) =
            Some ({| pending := more;
                     requests := pageRequests (RT := scripted wallet policy)
                                   env 0 (S (length full));
                     submitted := [] |},
                  Return (concat full ++ short)%list)))
  /\ (forall p0 p1 p2 more fuel,
        length p0 = 100%nat -> length p1 = 100%nat -> length p2 = 37%nat ->
        (3 <= fuel)%nat ->
        exists l ps,
          readPositions (RT := scripted wallet policy) env fuel 0 []
            (freshLedger (p0 :: p1 :: p2 :: more)) = Some (l, Return ps)
          /\ skipsOf l = [0; 100; 200]%nat
          /\ takesOf l = [100; 100; 100]%nat
          /\ pending l = more
          /\ ps = (p0 ++ p1 ++ p2)%list
          /\ length ps = 237%nat)
  /\ (forall p0 p1 p2 fuel,
        length p0 = 100%nat -> length p1 = 100%nat -> length p2 = 100%nat ->
        (4 <= fuel)%nat ->
        exists l ps,
          readPositions (RT := scripted wallet policy) env fuel 0 []
            (freshLedger [p0; p1; p2]) = Some (l, Return ps)
          /\ skipsOf l = [0; 100; 200; 300]%nat
          /\ ps = (p0 ++ p1 ++ p2)%list
          /\ length ps = 300%nat).
Proof.
  split; [reflexivity|]. split; [|split].
  - intros full short more fuel Hfull Hshort. split; intros Hfuel.
    + apply (scripted_read_running wallet policy env full (short :: more));
        [exact Hfull | reflexivity | exact Hfuel].
    + rewrite (scripted_read wallet policy env full (short :: more) fuel 0%nat []
                 (freshLedger (full ++ short :: more)) Hfull Hshort eq_refl Hfuel).
      reflexivity.
  - intros p0 p1 p2 more fuel H0 H1 H2 Hfuel.
    assert (Hfull : Forall FullPage [p0; p1])
      by (repeat constructor; unfold FullPage, PAGE_SIZE; lia).
    assert (Hshort : (length (hd [] (p2 :: more)) < PAGE_SIZE)%nat)
      by (cbn [hd]; unfold PAGE_SIZE; lia).
    do 2 eexists. split.
    + apply (scripted_read wallet policy env [p0; p1] (p2 :: more) fuel 0%nat []
               (freshLedger (p0 :: p1 :: p2 :: more)) Hfull Hshort eq_refl).
      simpl. lia.
    + split; [reflexivity|]. split; [reflexivity|]. split; [reflexivity|].
      cbn [app concat hd]. rewrite app_nil_r, <- app_assoc.
      split; [reflexivity|]. rewrite !length_app. lia.
  - intros p0 p1 p2 fuel H0 H1 H2 Hfuel.
    assert (Hfull : Forall FullPage [p0; p1; p2])
      by (repeat constructor; unfold FullPage, PAGE_SIZE; lia).
    assert (Hshort : (length (hd [] (@nil (list ClaimablePosition))) < PAGE_SIZE)%nat)
      by (cbn [hd length]; unfold PAGE_SIZE; lia).
    do 2 eexists. split.
    + apply (scripted_read wallet policy env [p0; p1; p2] [] fuel 0%nat []
               (freshLedger [p0; p1; p2]) Hfull Hshort eq_refl).
      simpl. lia.
    + split; [reflexivity|].
      cbn [app concat hd]. rewrite !app_nil_r.
      split; [reflexivity|]. rewrite !length_app. lia.
Qed.

Lemma paging_stops_at_first_short_page_witness :
  exists l ps,
    readPositions (RT := scripted alice acceptAll) sampleEnv 3 0 []
      (freshLedger [repeat scenarioA 100; repeat scenarioA 100;
                    repeat scenarioA 37; [scenarioA]]) = Some (l, Return ps)
    /\ skipsOf l = [0; 100; 200]%nat
    /\ takesOf l = [100; 100; 100]%nat
    /\ pending l = [[scenarioA]]
    /\ ps = (repeat scenarioA 100 ++ repeat scenarioA 100 ++ repeat scenarioA 37)%list
    /\ length ps = 237%nat.
Proof.
  apply (proj1 (proj2 (proj2 (paging_stops_at_first_short_page alice acceptAll sampleEnv)))
           (repeat scenarioA 100) (repeat scenarioA 100) (repeat scenarioA 37)
           [[scenarioA]] 3%nat);
    try (apply repeat_length); apply le_n.
Defined.

(* ================================================================== *)
(** ** Properties of the claim loop and of the report *)
(* ================================================================== *)

Lemma truthy_nonempty (s : string) : truthy s = true <-> s <> "".
Proof.
  unfold truthy. rewrite Bool.negb_true_iff. apply String.eqb_neq.
Qed.

Section ClaimLoop.
Context {RT : Runtime}.
Variable env : Env.

(** One iteration never throws: whatever fails inside [try] is turned
    into a result by [catch]. *)
Lemma claimPosition_total (c : Claimable) (w : World) :
  exists w' r, claimPosition env c w = (w', Return r) /\ ResultFor c r.
Proof.
  unfold claimPosition, try_catch, submitClaim, recordFailure, bind, lift, ret.
  destruct (BigInt (c_tokenId c)) as [id|e].
  - destruct (encodeFunctionData id (refCodeOf (position c))) as [calldata|e].
    + destruct (submitTransaction (burnRequest env calldata) w) as [w' [receipt|e]].
      * exists w'. eexists. split; [reflexivity|].
        repeat split. left. eexists. split; reflexivity.
      * exists w'. eexists. split; [reflexivity|].
        repeat split. right. eexists. split; reflexivity.
    + exists w. eexists. split; [reflexivity|].
      repeat split. right. eexists. split; reflexivity.
  - exists w. eexists. split; [reflexivity|].
    repeat split. right. eexists. split; reflexivity.
Qed.

Lemma claimLoop_cons (c : Claimable) (rest : list Claimable)
  (rs : list ClaimResult) (w w' : World) (r : ClaimResult) :
  claimPosition env c w = (w', Return r) ->
  claimLoop env (c :: rest) rs w = claimLoop env rest (rs ++ [r])%list w'.
Proof. intros H. cbn [claimLoop]. unfold bind. rewrite H. reflexivity. Qed.

Lemma claimLoop_results (winners : list Claimable) :
  forall rs w,
  exists w' out,
    claimLoop env winners rs w = (w', Return (rs ++ out)%list)
    /\ Forall2 ResultFor winners out.
Proof.
  induction winners as [|c rest IH]; intros rs w.
  - exists w, []. rewrite app_nil_r. split; [reflexivity | constructor].
  - destruct (claimPosition_total c w) as (w1 & r & Hc & Hr).
    destruct (IH (rs ++ [r])%list w1) as (w' & out & Hloop & Hout).
    exists w', (r :: out). split.
    + rewrite (claimLoop_cons c rest rs w w1 r Hc), Hloop.
      rewrite <- app_assoc. reflexivity.
    + constructor; assumption.
Qed.



(** One iteration records the outcome of the burn it tried. *)
Lemma claimPosition_outcome (c : Claimable) (w : World) :
  claimPosition env c w =
  (fst (burnOutcome env c w), Return (recordOf c (snd (burnOutcome env c w)))).
Proof.
  unfold claimPosition, try_catch, submitClaim, recordFailure, bind, lift, ret,
    burnOutcome, recordOf.
  destruct (BigInt (c_tokenId c)) as [id|e]; [|reflexivity].
  destruct (encodeFunctionData id (refCodeOf (position c))) as [calldata|e];
    [|reflexivity].
  destruct (submitTransaction (burnRequest env calldata) w) as [w' [receipt|e]];
    reflexivity.
Qed.

Lemma claimLoop_trace (winners : list Claimable) :
  forall rs w,
    claimLoop env winners rs w =
    (fst (burnTrace env winners w),
     Return (rs ++ recordAll winners (snd (burnTrace env winners w)))%list).
Proof.
  induction winners as [|c rest IH]; intros rs w.
  - cbn. rewrite app_nil_r. reflexivity.
  - rewrite (claimLoop_cons c rest rs w _ _ (claimPosition_outcome c w)), IH.
    cbn [burnTrace fst snd]. unfold recordAll. cbn [combine map fst snd].
    rewrite <- app_assoc. reflexivity.
Qed.

Lemma burnTrace_length (winners : list Claimable) :
  forall w, length (snd (burnTrace env winners w)) = length winners.
Proof.
  induction winners as [|c rest IH]; intros w; [reflexivity|].
  cbn [burnTrace snd length]. rewrite IH. reflexivity.
Qed.

Lemma recordAll_length (winners : list Claimable) (os : list (Completion string)) :
  length os = length winners -> length (recordAll winners os) = length winners.
Proof.
  intros H. unfold recordAll. rewrite length_map, length_combine, H.
  apply Nat.min_id.
Qed.

Lemma recordAll_exclusive (winners : list Claimable) :
  forall os,
    Forall (fun r => (exists h, txHash r = Some h /\ error r = None)
                     \/ (exists m, txHash r = None /\ error r = Some m))
      (recordAll winners os).
Proof.
  induction winners as [|c rest IH]; intros [|o os]; try constructor.
  - destruct o; [left | right]; eexists; split; reflexivity.
  - apply IH.
Qed.



End ClaimLoop.

Section LoggingClaims.
Variable cfg : Env.
Variable chain : Z.
Variable respond : IndexBehaviour.
Variable encode : Z -> string -> Completion string.
Variable format : Z -> string.
Variable policy : Policy.
Variable env : Env.

Local Abbreviation RT := (logging cfg chain respond encode format policy).

Lemma logging_burnOutcome (c : Claimable) (l : Ledger) :
  let l' := fst (burnOutcome (RT := RT) env c l) in
  pending l' = pending l
  /\ requests l' = requests l
  /\ submitted l' = (submitted l ++ attempt (RT := RT) env c)%list.
Proof.
  unfold burnOutcome, attempt.
  destruct (BigInt (c_tokenId c)) as [id|e].
  - destruct (encodeFunctionData (Runtime := RT) id (refCodeOf (position c)))
      as [calldata|e].
    + cbn [submitTransaction logging]. unfold submitWith.
      destruct (policy (submitted l) (burnRequest (RT := RT) env calldata));
        cbn; repeat split.
    + cbn. rewrite app_nil_r. repeat split.
  - cbn. rewrite app_nil_r. repeat split.
Qed.

Lemma logging_burnTrace (winners : list Claimable) :
  forall l,
    let l' := fst (burnTrace (RT := RT) env winners l) in
    pending l' = pending l
    /\ requests l' = requests l
    /\ submitted l' =
       (submitted l ++ flat_map (attempt (RT := RT) env) winners)%list.
Proof.
  induction winners as [|c rest IH]; intros l.
  - cbn. rewrite app_nil_r. repeat split.
  - destruct (logging_burnOutcome c l) as (Hp & Hq & Hs).
    destruct (IH (fst (burnOutcome (RT := RT) env c l))) as (Hp' & Hq' & Hs').
    cbv zeta in *. cbn [burnTrace fst flat_map].
    rewrite Hp', Hq', Hs', Hp, Hq, Hs, <- app_assoc. repeat split.
Qed.

End LoggingClaims.

(** What [claimAndReport] does when there is a winner. *)
Lemma claimAndReport_with_winners {RT : Runtime} (env : Env)
  (cs : list Claimable) (w : World) :
  filter c_isWinner cs <> [] ->
  (exists w1 e, loadSdk w = (w1, Throw e)
                /\ claimAndReport env cs w = (w1, Throw e))
  \/ (exists w1 w' rs,
        loadSdk w = (w1, Return tt)
        /\ claimLoop env (filter c_isWinner cs) [] w1 = (w', Return rs)
        /\ Forall2 ResultFor (filter c_isWinner cs) rs
        /\ claimAndReport env cs w =
           (w', Return (Claimed
              {| success := (0 <? length (filter (fun r => truthy_opt (txHash r)) rs))%nat;
                 claimableCount := length cs;
                 winningCount := length (filter c_isWinner cs);
                 losingCount := length (filter (fun p => negb (c_isWinner p)) cs);
                 successfulClaims := length (filter (fun r => truthy_opt (txHash r)) rs);
                 failedClaims := length (filter (fun r => truthy_opt (error r)) rs);
                 totalWinnings := formatEther (sumWinnings (filter c_isWinner cs));
                 results := rs;
                 responseText :=
                   chooseText (length (filter (fun r => truthy_opt (txHash r)) rs))
                     (length (filter (fun r => truthy_opt (error r)) rs)) |}))).
Proof.
  intros Hwin.
  destruct (loadSdk w) as [w1 [[]|e]] eqn:Hsdk.
  - right.
    destruct (claimLoop_results env (filter c_isWinner cs) [] w1)
      as (w' & out & Hloop & Hout).
    cbn [app] in Hloop. exists w1, w', out.
    split; [reflexivity|]. split; [exact Hloop|]. split; [exact Hout|].
    unfold claimAndReport.
    destruct (filter c_isWinner cs) as [|c winners] eqn:Hf; [congruence|].
    change ((length (c :: winners) =? 0)%nat) with false. cbv iota.
    unfold bind. rewrite Hsdk, Hloop. reflexivity.
  - left. exists w1, e. split; [reflexivity|].
    unfold claimAndReport.
    destruct (filter c_isWinner cs) as [|c winners] eqn:Hf; [congruence|].
    change ((length (c :: winners) =? 0)%nat) with false. cbv iota.
    unfold bind. rewrite Hsdk. reflexivity.
Qed.

(** C7: the claim loop ends normally and records, for every winning
    position in order, exactly one result: the outcome of trying that
    position's burn from the world the previous try left, with the
    returned hash and no error when the try succeeded, and the error's
    message and no hash when it threw.  On a chain that logs, with any
    encoder and any answers, the burn of every winning position is
    submitted, whatever happened to the ones before it. *)
Theorem claim_loop_isolates_failures :
  (forall (RT : Runtime) (env : Env) (winners : list Claimable)
          (rs : list ClaimResult) (w : World),
      claimLoop env winners rs w =
      (fst (burnTrace env winners w),
       Return (rs ++ recordAll winners (snd (burnTrace env winners w)))%list)
      /\ length (recordAll winners (snd (burnTrace env winners w))) = length winners
      /\ Forall (fun r => (exists h, txHash r = Some h /\ error r = None)
                          \/ (exists m, txHash r = None /\ error r = Some m))
           (recordAll winners (snd (burnTrace env winners w))))
  /\ (forall (cfg : Env) (chain : Z) (respond : IndexBehaviour)
             (encode : Z -> string -> Completion string) (format : Z -> string)
             (policy : Policy) (env : Env)
             (winners : list Claimable) (rs : list ClaimResult) (l : Ledger),
         submitted
           (fst (claimLoop (RT := logging cfg chain respond encode format policy)
                   env winners rs l)) =
         (submitted l
          ++ flat_map (attempt (RT := logging cfg chain respond encode format policy)
                         env) winners)%list).
Proof.
  split.
  - intros RT env winners rs w. split; [apply claimLoop_trace|]. split.
    + apply recordAll_length, burnTrace_length.
    + apply recordAll_exclusive.
  - intros cfg chain respond encode format policy env winners rs l.
    rewrite (claimLoop_trace (RT := logging cfg chain respond encode format policy)).
    cbn [fst].
    apply (logging_burnTrace cfg chain respond encode format policy env winners l).
Qed.


Example threeWinners_collected :
  collectClaimable alice threeWinners [] = Return threeEntries.
Proof. reflexivity. Qed.



(* ================================================================== *)
(** ** Further properties of the evaluator *)
(* ================================================================== *)

Lemma getClaimableInfo_bad_total (position : ClaimablePosition) (walletAddress : string) :
  passes_gating position walletAddress = true ->
  StringToBigInt (totalCollateral position) = None ->
  getClaimableInfo position walletAddress =
  Throw (SyntaxError (totalCollateral position)).
Proof.
  unfold passes_gating, is_predictor, is_counterparty, getClaimableInfo, BigInt.
  intros Hg Ht. rewrite Ht.
  destruct (toLowerCase (predictor position) =? toLowerCase walletAddress)%string;
    destruct (toLowerCase (counterparty position) =? toLowerCase walletAddress)%string;
    destruct (status position =? "active")%string;
    destruct (areAllConditionsSettled position); simpl in *;
    try discriminate; reflexivity.
Qed.

Lemma getClaimableInfo_bad_stake (position : ClaimablePosition)
  (walletAddress : string) (total : Z) :
  passes_gating position walletAddress = true ->
  StringToBigInt (totalCollateral position) = Some total ->
  StringToBigInt (caller_stake position walletAddress) = None ->
  getClaimableInfo position walletAddress =
  Throw (SyntaxError (caller_stake position walletAddress)).
Proof.
  unfold passes_gating, caller_stake, is_predictor, is_counterparty,
    getClaimableInfo, BigInt.
  intros Hg Ht Hs. rewrite Ht.
  destruct (toLowerCase (predictor position) =? toLowerCase walletAddress)%string;
    destruct (toLowerCase (counterparty position) =? toLowerCase walletAddress)%string;
    destruct (status position =? "active")%string;
    destruct (areAllConditionsSettled position); simpl in *;
    try discriminate; rewrite Hs; reflexivity.
Qed.

(** The four ways [getClaimableInfo] can end. *)
Lemma getClaimableInfo_cases (position : ClaimablePosition) (walletAddress : string) :
  (passes_gating position walletAddress = false
   /\ getClaimableInfo position walletAddress = Return None)
  \/ (passes_gating position walletAddress = true
      /\ StringToBigInt (totalCollateral position) = None
      /\ getClaimableInfo position walletAddress =
         Throw (SyntaxError (totalCollateral position)))
  \/ (passes_gating position walletAddress = true
      /\ (exists total, StringToBigInt (totalCollateral position) = Some total)
      /\ StringToBigInt (caller_stake position walletAddress) = None
      /\ getClaimableInfo position walletAddress =
         Throw (SyntaxError (caller_stake position walletAddress)))
  \/ (passes_gating position walletAddress = true
      /\ exists total stake,
           StringToBigInt (totalCollateral position) = Some total
           /\ StringToBigInt (caller_stake position walletAddress) = Some stake
           /\ getClaimableInfo position walletAddress =
              Return (Some {| tokenId := caller_token position walletAddress;
                              isWinner := caller_wins position walletAddress;
                              winnings := if caller_wins position walletAddress
                                          then total - stake else 0;
                              marketName := market_label position |})).
Proof.
  destruct (passes_gating position walletAddress) eqn:Hg.
  - right.
    destruct (StringToBigInt (totalCollateral position)) as [total|] eqn:Ht.
    + right.
      destruct (StringToBigInt (caller_stake position walletAddress)) as [stake|] eqn:Hs.
      * right. split; [reflexivity|]. exists total, stake.
        repeat split. apply getClaimableInfo_claimable; assumption.
      * left. split; [reflexivity|]. split; [eauto|]. split; [reflexivity|].
        apply (getClaimableInfo_bad_stake position walletAddress total); assumption.
    + left. repeat split. apply getClaimableInfo_bad_total; assumption.
  - left. split; [reflexivity|]. apply gating_fail_returns_nothing, Hg.
Qed.

Lemma getClaimableInfo_some_inv (position : ClaimablePosition)
  (walletAddress : string) (info : ClaimableInfo) :
  getClaimableInfo position walletAddress = Return (Some info) ->
  passes_gating position walletAddress = true
  /\ exists total stake,
       StringToBigInt (totalCollateral position) = Some total
       /\ StringToBigInt (caller_stake position walletAddress) = Some stake
       /\ info = {| tokenId := caller_token position walletAddress;
                    isWinner := caller_wins position walletAddress;
                    winnings := if caller_wins position walletAddress
                                then total - stake else 0;
                    marketName := market_label position |}.
Proof.
  intros H.
  destruct (getClaimableInfo_cases position walletAddress)
    as [[_ E]|[(_ & _ & E)|[(_ & _ & _ & E)|(Hg & total & stake & Ht & Hs & E)]]];
    rewrite E in H; try discriminate.
  split; [exact Hg|]. exists total, stake. repeat split; try assumption.
  congruence.
Qed.

(** X1: a predictor can only have won a position all of whose conditions are
    settled. *)
Theorem win_implies_settled (position : ClaimablePosition) :
  didPredictorWin position = true -> areAllConditionsSettled position = true.
Proof.
  unfold didPredictorWin, areAllConditionsSettled.
  destruct (length (predictions position) =? 0)%nat; [discriminate|].
  rewrite !forallb_forall. intros H pred Hin.
  apply leg_won_settled, H, Hin.
Qed.

Lemma win_implies_settled_witness :
  areAllConditionsSettled scenarioA = true.
Proof. apply (win_implies_settled scenarioA). reflexivity. Defined.

(** X2: when the two sides are different wallets and both can claim, exactly
    one of them is the winner, each gets the token of its own side, and
    the other one's winnings are zero. *)
Theorem exactly_one_side_wins (position : ClaimablePosition)
  (infoP infoC : ClaimableInfo) :
  toLowerCase (predictor position) <> toLowerCase (counterparty position) ->
  getClaimableInfo position (predictor position) = Return (Some infoP) ->
  getClaimableInfo position (counterparty position) = Return (Some infoC) ->
  isWinner infoP = didPredictorWin position
  /\ isWinner infoC = negb (didPredictorWin position)
  /\ tokenId infoP = predictorNftTokenId position
  /\ tokenId infoC = counterpartyNftTokenId position
  /\ (winnings infoP = 0 \/ winnings infoC = 0).
Proof.
  intros Hdiff HP HC.
  apply getClaimableInfo_some_inv in HP. destruct HP as (_ & tp & sp & _ & _ & ->).
  apply getClaimableInfo_some_inv in HC. destruct HC as (_ & tc & sc & _ & _ & ->).
  cbn [isWinner tokenId winnings].
  unfold caller_wins, caller_token, is_predictor, is_counterparty.
  rewrite !String.eqb_refl.
  assert (H1 : (toLowerCase (counterparty position)
                =? toLowerCase (predictor position))%string = false)
    by (apply String.eqb_neq; congruence).
  assert (H2 : (toLowerCase (predictor position)
                =? toLowerCase (counterparty position))%string = false)
    by (apply String.eqb_neq; congruence).
  rewrite H1, H2.
  destruct (didPredictorWin position); cbn; auto 6.
Qed.

Lemma exactly_one_side_wins_witness :
  exists infoP infoC,
    getClaimableInfo scenarioA alice = Return (Some infoP)
    /\ getClaimableInfo scenarioA bob = Return (Some infoC)
    /\ isWinner infoP = true /\ isWinner infoC = false
    /\ (winnings infoP = 0 \/ winnings infoC = 0).
Proof.
  do 2 eexists. split; [reflexivity|]. split; [reflexivity|].
  destruct (exactly_one_side_wins scenarioA _ _
              ltac:(discriminate) eq_refl eq_refl) as (H1 & H2 & _ & _ & H3).
  split; [exact H1|]. split; [exact H2 | exact H3].
Defined.

(** X3: when the total collateral is the sum of the two stakes, what the
    winner gains is exactly the stake of the other side. *)
Theorem winner_gains_other_stake (position : ClaimablePosition)
  (walletAddress : string) (total p c : Z) (info : ClaimableInfo) :
  StringToBigInt (totalCollateral position) = Some total ->
  StringToBigInt (or_else (predictorCollateral position) "0") = Some p ->
  StringToBigInt (or_else (counterpartyCollateral position) "0") = Some c ->
  total = p + c ->
  getClaimableInfo position walletAddress = Return (Some info) ->
  isWinner info = true ->
  winnings info = if is_predictor position walletAddress then c else p.
Proof.
  intros Ht Hp Hc Hsum Hinfo Hwin.
  apply getClaimableInfo_some_inv in Hinfo.
  destruct Hinfo as (_ & total' & stake & Ht' & Hs & ->).
  cbn [isWinner winnings] in *. rewrite Hwin.
  unfold caller_stake in Hs.
  destruct (is_predictor position walletAddress); [rewrite Hp in Hs | rewrite Hc in Hs];
    injection Hs as <-; rewrite Ht in Ht'; injection Ht' as <-; lia.
Qed.

Lemma winner_gains_other_stake_witness :
  exists info,
    getClaimableInfo scenarioA alice = Return (Some info) /\ winnings info = 60.
Proof.
  eexists. split; [reflexivity|].
  apply (winner_gains_other_stake scenarioA alice 100 40 60); reflexivity.
Defined.

Lemma lower_ascii_idempotent (c : ascii) :
  lower_ascii (lower_ascii c) = lower_ascii c.
Proof. destruct c as [[] [] [] [] [] [] [] []]; reflexivity. Qed.

Lemma toLowerCase_idempotent (s : string) :
  toLowerCase (toLowerCase s) = toLowerCase s.
Proof.
  induction s as [|c s IH]; [reflexivity|].
  cbn [toLowerCase]. rewrite lower_ascii_idempotent, IH. reflexivity.
Qed.

(** X4: the letter case of the wallet address does not matter: the address
    in lower case gets the same answer. *)
Theorem wallet_case_is_irrelevant (position : ClaimablePosition)
  (walletAddress : string) :
  getClaimableInfo position (toLowerCase walletAddress) =
  getClaimableInfo position walletAddress.
Proof.
  unfold getClaimableInfo. rewrite toLowerCase_idempotent. reflexivity.
Qed.

(** X5: [getClaimableInfo] throws exactly when the position passes the gating
    and the total collateral, or else the caller's own stake, is not an
    integer literal; the error names the offending text.  The stake of
    the other side is never read. *)
Theorem getClaimableInfo_throws_iff (position : ClaimablePosition)
  (walletAddress : string) (e : Error) :
  getClaimableInfo position walletAddress = Throw e <->
  passes_gating position walletAddress = true
  /\ ((StringToBigInt (totalCollateral position) = None
       /\ e = SyntaxError (totalCollateral position))
      \/ (StringToBigInt (totalCollateral position) <> None
          /\ StringToBigInt (caller_stake position walletAddress) = None
          /\ e = SyntaxError (caller_stake position walletAddress))).
Proof.
  destruct (getClaimableInfo_cases position walletAddress)
    as [[Hg E]|[(Hg & Ht & E)|[(Hg & (t & Ht) & Hs & E)|(Hg & t & s & Ht & Hs & E)]]];
    rewrite E; split.
  - discriminate.
  - intros [Hg' _]. congruence.
  - intros H. injection H as <-. split; [exact Hg|]. left. auto.
  - intros [_ [[_ ->]|(Hne & _)]]; [reflexivity | congruence].
  - intros H. injection H as <-. split; [exact Hg|]. right.
    repeat split; congruence.
  - intros [_ [[Hn _]|(_ & _ & ->)]]; [congruence | reflexivity].
  - discriminate.
  - intros [_ [[Hn _]|(_ & Hn & _)]]; congruence.
Qed.

Lemma getClaimableInfo_throws_iff_witness :
  getClaimableInfo malformed alice = Throw (SyntaxError "1e3").
Proof.
  apply (proj2 (getClaimableInfo_throws_iff malformed alice (SyntaxError "1e3"))).
  split; [reflexivity|]. left. split; reflexivity.
Defined.

(** X6: amounts written as plain decimal digits never make [getClaimableInfo]
    throw, and the winnings are computed on the integers they denote. *)
Theorem decimal_amounts_never_throw (position : ClaimablePosition)
  (walletAddress : string) (totalDigits stakeDigits : list nat) :
  passes_gating position walletAddress = true ->
  totalDigits <> [] -> Forall (fun d => (d < 10)%nat) totalDigits ->
  stakeDigits <> [] -> Forall (fun d => (d < 10)%nat) stakeDigits ->
  totalCollateral position = numeral totalDigits ->
  caller_stake position walletAddress = numeral stakeDigits ->
  exists info,
    getClaimableInfo position walletAddress = Return (Some info)
    /\ winnings info =
       if isWinner info then horner totalDigits 0 - horner stakeDigits 0 else 0.
Proof.
  intros Hg Hnt Hdt Hns Hds Ht Hs.
  rewrite (getClaimableInfo_claimable position walletAddress
             (horner totalDigits 0) (horner stakeDigits 0) Hg).
  - eexists. split; reflexivity.
  - rewrite Ht. apply StringToBigInt_numeral; assumption.
  - rewrite Hs. apply StringToBigInt_numeral; assumption.
Qed.

Lemma decimal_amounts_never_throw_witness :
  exists info,
    getClaimableInfo scenarioA alice = Return (Some info)
    /\ winnings info =
       if isWinner info then horner [1; 0; 0]%nat 0 - horner [4; 0]%nat 0 else 0.
Proof.
  apply (decimal_amounts_never_throw scenarioA alice [1; 0; 0]%nat [4; 0]%nat);
    try reflexivity; try discriminate; repeat constructor.
Defined.

(** X7: a caller whose own stake is null or the empty text is treated as
    having staked nothing: if it wins, its winnings are the whole total
    collateral. *)
Theorem missing_stake_counts_as_zero (position : ClaimablePosition)
  (walletAddress : string) (total : Z) :
  passes_gating position walletAddress = true ->
  StringToBigInt (totalCollateral position) = Some total ->
  truthy_opt (if is_predictor position walletAddress
              then predictorCollateral position
              else counterpartyCollateral position) = false ->
  exists info,
    getClaimableInfo position walletAddress = Return (Some info)
    /\ winnings info = if isWinner info then total else 0.
Proof.
  intros Hg Ht Hnull.
  assert (Hs : StringToBigInt (caller_stake position walletAddress) = Some 0).
  { unfold caller_stake.
    destruct (is_predictor position walletAddress).
    - destruct (predictorCollateral position) as [s|]; [|reflexivity].
      cbn in Hnull |- *. rewrite Hnull. reflexivity.
    - destruct (counterpartyCollateral position) as [s|]; [|reflexivity].
      cbn in Hnull |- *. rewrite Hnull. reflexivity. }
  rewrite (getClaimableInfo_claimable position walletAddress total 0 Hg Ht Hs).
  eexists. split; [reflexivity|]. cbn [winnings isWinner].
  destruct (caller_wins position walletAddress); [lia | reflexivity].
Qed.

Lemma missing_stake_counts_as_zero_witness :
  exists info,
    getClaimableInfo noStake alice = Return (Some info)
    /\ winnings info = if isWinner info then 100 else 0.
Proof.
  apply (missing_stake_counts_as_zero noStake alice 100); reflexivity.
Defined.

Lemma or_else_nonempty (o : option string) (d : string) :
  d <> "" -> or_else o d <> "".
Proof.
  intros Hd. unfold or_else. destruct o as [s|]; [|exact Hd].
  destruct (truthy s) eqn:E; [apply truthy_nonempty, E | exact Hd].
Qed.

Lemma substring_length_le (n : nat) : forall s, (String.length (substring 0 n s) <= n)%nat.
Proof.
  induction n as [|n IH]; intros [|c s]; cbn; try lia.
  specialize (IH s). lia.
Qed.

Lemma settled_has_first_condition (position : ClaimablePosition) :
  areAllConditionsSettled position = true ->
  exists c, first_condition position = Some c.
Proof.
  unfold areAllConditionsSettled, first_condition.
  destruct (predictions position) as [|pred legs]; [discriminate|].
  cbn. unfold leg_settled. destruct (condition pred) as [c|]; [eauto|discriminate].
Qed.

(** X8: the label of a claimable position is never empty: it is the short
    name of the first leg's condition when that is non-empty, else the
    first 50 characters of its question when that is non-empty, else
    [Position #id]. *)
Theorem label_of_claimable (position : ClaimablePosition)
  (walletAddress : string) (info : ClaimableInfo) :
  getClaimableInfo position walletAddress = Return (Some info) ->
  marketName info <> ""
  /\ exists c,
       first_condition position = Some c
       /\ (forall s, shortName c = Some s -> s <> "" -> marketName info = s)
       /\ (truthy_opt (shortName c) = false ->
           forall q, question c = Some q -> q <> "" ->
                     marketName info = substring 0 50 q
                     /\ (String.length (marketName info) <= 50)%nat)
       /\ (truthy_opt (shortName c) = false ->
           truthy_opt (question c) = false ->
           marketName info = "Position #" ++ number_to_string (pos_id position)).
Proof.
  intros H. apply getClaimableInfo_some_inv in H.
  destruct H as (Hg & total & stake & _ & _ & ->). cbn [marketName].
  split.
  - unfold market_label. apply or_else_nonempty. discriminate.
  - apply passes_gating_spec in Hg. destruct Hg as (_ & _ & Hs).
    destruct (settled_has_first_condition position Hs) as (c & Hc).
    exists c. split; [exact Hc|]. unfold market_label. rewrite Hc.
    split; [|split].
    + intros s Hsn Hne. rewrite Hsn. apply truthy_nonempty in Hne.
      unfold or_opt, or_else. cbn [truthy_opt]. rewrite Hne, Hne. reflexivity.
    + intros Hshort q Hq Hne. unfold or_opt. rewrite Hshort, Hq.
      cbn [option_map or_else].
      assert (Hsl : truthy (slice0 50 q) = true).
      { apply truthy_nonempty. destruct q as [|a q]; [congruence|]. discriminate. }
      rewrite Hsl. split; [reflexivity | apply substring_length_le].
    + intros Hshort Hquestion. unfold or_opt. rewrite Hshort.
      destruct (question c) as [q|]; cbn [option_map or_else]; [|reflexivity].
      cbn [truthy_opt] in Hquestion.
      assert (q = "") as ->.
      { destruct (String.eqb_spec q ""); [assumption|].
        apply truthy_nonempty in n. congruence. }
      reflexivity.
Qed.

Lemma label_of_claimable_witness :
  exists info,
    getClaimableInfo scenarioA alice = Return (Some info)
    /\ marketName info <> "".
Proof.
  eexists. split; [reflexivity|].
  apply (label_of_claimable scenarioA alice). reflexivity.
Defined.

(* ================================================================== *)
(** ** Properties of [validate] *)
(* ================================================================== *)

Lemma prefix_spec (needle : string) :
  forall s, prefix needle s = true <-> exists after, s = needle ++ after.
Proof.
  induction needle as [|a needle IH]; intros s.
  - split; [intros _; exists s; reflexivity | intros _; destruct s; reflexivity].
  - destruct s as [|b s]; cbn [prefix].
    + split; [discriminate | intros [after H]; discriminate].
    + destruct (ascii_dec a b) as [->|Hab].
      * rewrite IH. split; intros [after H]; exists after; cbn in *; congruence.
      * split; [discriminate|]. intros [after H]. cbn in H. congruence.
Qed.

Lemma includes_spec (needle : string) :
  forall s, includes needle s = true <-> Contains needle s.
Proof.
  intros s. split.
  - induction s as [|c s IH]; cbn [includes]; rewrite Bool.orb_true_iff.
    + intros [H|H]; [|discriminate]. apply prefix_spec in H.
      destruct H as [after H]. exists "", after. exact H.
    + intros [H|H].
      * apply prefix_spec in H. destruct H as [after H]. exists "", after. exact H.
      * destruct (IH H) as (before & after & E).
        exists (String c before), after. cbn. rewrite E. reflexivity.
  - intros (before & after & E). subst s.
    induction before as [|c before IH].
    + assert (H : prefix needle ("" ++ needle ++ after) = true)
        by (apply prefix_spec; exists after; reflexivity).
      cbn [append] in *. destruct (needle ++ after); cbn [includes]; rewrite H; reflexivity.
    + cbn [append includes]. rewrite IH. apply Bool.orb_true_r.
Qed.

Lemma append_assoc (a b c : string) : (a ++ b) ++ c = a ++ b ++ c.
Proof. induction a as [|x a IH]; cbn; [reflexivity | rewrite IH; reflexivity]. Qed.

Lemma Contains_extend (needle t before after : string) :
  Contains needle t -> Contains needle (before ++ t ++ after).
Proof.
  intros (b & a & ->). exists (before ++ b), (a ++ after).
  rewrite !append_assoc. reflexivity.
Qed.

Lemma toLowerCase_app (a b : string) :
  toLowerCase (a ++ b) = toLowerCase a ++ toLowerCase b.
Proof. induction a as [|x a IH]; cbn; [reflexivity | rewrite IH; reflexivity]. Qed.

Lemma messageText_say (t : string) : messageText (say t) = toLowerCase t.
Proof.
  unfold messageText, say. cbn [content text option_map or_else].
  destruct (truthy (toLowerCase t)) eqn:E; [reflexivity|].
  destruct (String.eqb_spec (toLowerCase t) "") as [->|Hne]; [reflexivity|].
  apply truthy_nonempty in Hne. congruence.
Qed.

Lemma messageText_some (m : Memory) :
  messageText m <> "" ->
  exists c t, content m = Some c /\ text c = Some t /\ messageText m = toLowerCase t.
Proof.
  unfold messageText. destruct (content m) as [c|]; [|cbn; congruence].
  destruct (text c) as [t|] eqn:Ht; [|cbn; congruence].
  intros H. exists c, t. split; [reflexivity|]. split; [exact Ht|].
  cbn [option_map or_else] in *.
  destruct (truthy (toLowerCase t)); [reflexivity | congruence].
Qed.

Lemma validate_words (t : string) :
  ((includes "claim" t || includes "redeem" t || includes "collect" t
    || includes "withdraw" t)
   && (includes "winning" t || includes "profit" t || includes "reward" t)) = true
  <-> (exists v, In v claimVerbs /\ Contains v t)
      /\ (exists n, In n claimNouns /\ Contains n t).
Proof.
  rewrite Bool.andb_true_iff, !Bool.orb_true_iff, !includes_spec.
  unfold claimVerbs, claimNouns. cbn [In]. split.
  - intros [[[[H|H]|H]|H] [[H'|H']|H']]; split; eauto 8.
  - intros [(v & Hv & Cv) (n & Hn & Cn)]. split.
    + destruct Hv as [<-|[<-|[<-|[<-|[]]]]]; auto.
    + destruct Hn as [<-|[<-|[<-|[]]]]; auto.
Qed.

Lemma Contains_nonempty (needle t : string) :
  needle <> "" -> Contains needle t -> t <> "".
Proof.
  intros Hn (b & a & ->). destruct b; [|discriminate].
  destruct needle; [congruence | discriminate].
Qed.

(** X9: [validate] accepts a message exactly when it carries a text that, in
    lower case, contains one of claim, redeem, collect, withdraw and one
    of winning, profit, reward; a message without content or without
    text is refused. *)
Theorem validate_iff (m : Memory) :
  validate m = true <->
  exists c t,
    content m = Some c /\ text c = Some t
    /\ (exists v, In v claimVerbs /\ Contains v (toLowerCase t))
    /\ (exists n, In n claimNouns /\ Contains n (toLowerCase t)).
Proof.
  unfold validate. cbv zeta. rewrite validate_words. split.
  - intros [(v & Hv & Cv) Hn].
    assert (Hne : messageText m <> "").
    { apply (Contains_nonempty v); [|exact Cv].
      unfold claimVerbs in Hv. cbn [In] in Hv.
      destruct Hv as [<-|[<-|[<-|[<-|[]]]]]; discriminate. }
    destruct (messageText_some m Hne) as (c & t & Hc & Ht & E).
    exists c, t. rewrite <- E.
    split; [exact Hc|]. split; [exact Ht|]. split; [exists v; auto | exact Hn].
  - intros (c & t & Hc & Ht & Hv & Hn).
    assert (E : messageText m = toLowerCase t).
    { destruct m as [[[tx]|]]; cbn in Hc, Ht; try discriminate.
      injection Hc as <-. cbn in Ht. subst tx. apply messageText_say. }
    rewrite E. auto.
Qed.

Lemma validate_iff_witness : validate (say "Claim my WINNINGS") = true.
Proof.
  apply (proj2 (validate_iff (say "Claim my WINNINGS"))).
  exists {| text := Some "Claim my WINNINGS" |}, "Claim my WINNINGS".
  split; [reflexivity|]. split; [reflexivity|]. split.
  - exists "claim". split; [left; reflexivity|]. exists "", " my winnings". reflexivity.
  - exists "winning". split; [left; reflexivity|]. exists "claim my ", "s". reflexivity.
Defined.

(** X10: a text that validates still validates with anything written before
    or after it, and in any letter case. *)
Theorem validate_survives_context (t before after : string) :
  validate (say t) = true ->
  validate (say (before ++ t ++ after)) = true
  /\ validate (say (toLowerCase t)) = true.
Proof.
  unfold validate. cbv zeta.
  rewrite !messageText_say, toLowerCase_idempotent, !validate_words.
  rewrite !toLowerCase_app.
  intros [(v & Hv & Cv) (n & Hn & Cn)]. split.
  - split; [exists v | exists n]; (split; [assumption|]);
      apply Contains_extend; assumption.
  - split; [exists v | exists n]; split; assumption.
Qed.

Lemma validate_survives_context_witness :
  validate (say ("please " ++ "redeem my profits" ++ " now")) = true
  /\ validate (say (toLowerCase "redeem my profits")) = true.
Proof.
  apply (validate_survives_context "redeem my profits" "please " " now").
  reflexivity.
Defined.

(* ================================================================== *)
(** ** Properties of [graphqlRequest] and of the collection loop *)
(* ================================================================== *)

(** X11: [graphqlRequest] returns data only from a reply that is OK, parses,
    and has no [errors] field; a reply with an [errors] field, even an
    empty array, throws, and its data is dropped. *)
Theorem graphqlRequest_returns_iff {RT : Runtime} (endpoint q : string)
  (vars : QueryVariables) (w w' : World) :
  (forall d,
      graphqlRequest endpoint q vars w = (w', Return d) <->
      exists resp body,
        fetch endpoint {| query := q; variables := vars |} w = (w', Return resp)
        /\ ok resp = true
        /\ json resp = Return body
        /\ errors body = None
        /\ data body = d)
  /\ (forall resp body errs,
        fetch endpoint {| query := q; variables := vars |} w = (w', Return resp) ->
        ok resp = true ->
        json resp = Return body ->
        errors body = Some errs ->
        exists m,
          graphqlRequest endpoint q vars w =
          (w', Throw (PlainError ("GraphQL error: " ++ m)))
          /\ m <> ""
          /\ (errs = [] -> m = "Unknown error")).
Proof.
  split.
  - intros d. unfold graphqlRequest, bind, throw, lift, ret.
    destruct (fetch endpoint {| query := q; variables := vars |} w) as [w1 [resp|e]].
    + destruct (ok resp) eqn:Hok; cbn [negb].
      * destruct (json resp) as [body|e] eqn:Hjson.
        -- destruct (errors body) as [errs|] eqn:Herr.
           ++ split; [discriminate|].
              intros (resp' & body' & H & _ & Hj & He & _).
              injection H as _ <-. congruence.
           ++ split.
              ** intros H. injection H as <- <-. exists resp, body. auto.
              ** intros (resp' & body' & H & _ & Hj & _ & Hd).
                 injection H as <- <-. congruence.
        -- split; [discriminate|].
           intros (resp' & body' & H & _ & Hj & _). injection H as _ <-. congruence.
      * split; [discriminate|].
        intros (resp' & body' & H & Hok' & _). injection H as _ <-. congruence.
    + split; [discriminate|]. intros (resp' & body' & H & _). discriminate.
  - intros resp body errs Hf Hok Hj He.
    unfold graphqlRequest, bind, throw, lift, ret. rewrite Hf, Hok, Hj, He.
    cbn [negb]. eexists. split; [reflexivity|]. split.
    + apply or_else_nonempty. discriminate.
    + intros ->. reflexivity.
Qed.

Lemma graphqlRequest_returns_iff_witness :
  graphqlRequest (RT := scripted alice acceptAll) "https://index.example/graphql"
    CLAIMABLE_POSITIONS_QUERY (pageBody (RT := scripted alice acceptAll) sampleEnv 0)
    (freshLedger [[scenarioA]])
  = (fst (serve "https://index.example/graphql"
            {| query := CLAIMABLE_POSITIONS_QUERY;
               variables := pageBody (RT := scripted alice acceptAll) sampleEnv 0 |}
            (freshLedger [[scenarioA]])),
     Return {| positions := [scenarioA] |}).
Proof.
  apply (proj2 (proj1 (graphqlRequest_returns_iff (RT := scripted alice acceptAll)
                         _ _ _ _ _) _)).
  do 2 eexists. split; [reflexivity|]. repeat split.
Defined.

Lemma collectClaimable_spec (wallet : string) (ps : list ClaimablePosition) :
  forall acc cs,
    collectClaimable wallet ps acc = Return cs ->
    exists new,
      cs = (acc ++ new)%list
      /\ map position new = filter (fun p => passes_gating p wallet) ps
      /\ Forall (fun c => getClaimableInfo (position c) wallet
                          = Return (Some (infoOf c))) new.
Proof.
  induction ps as [|p rest IH]; intros acc cs H; cbn [collectClaimable] in H.
  - injection H as <-. exists []. rewrite app_nil_r. repeat split. constructor.
  - cbn [filter].
    destruct (getClaimableInfo_cases p wallet)
      as [[Hg E]|[(_ & _ & E)|[(_ & _ & _ & E)|(Hg & t & s & _ & _ & E)]]];
      rewrite E in H; try discriminate; rewrite Hg.
    + apply IH, H.
    + destruct (IH _ _ H) as (new & -> & Hmap & Hall).
      eexists (_ :: new). rewrite <- app_assoc. split; [reflexivity|]. split.
      * cbn [map position]. rewrite Hmap. reflexivity.
      * constructor; [exact E | exact Hall].
Qed.

Lemma collectClaimable_throws (wallet : string) (p : ClaimablePosition) (e : Error) :
  getClaimableInfo p wallet = Throw e ->
  forall ps acc, In p ps -> exists e', collectClaimable wallet ps acc = Throw e'.
Proof.
  intros Hp ps. induction ps as [|q rest IH]; intros acc Hin; [destruct Hin|].
  cbn [collectClaimable].
  destruct (getClaimableInfo q wallet) as [[info|]|e'] eqn:Hq.
  - destruct Hin as [->|Hin]; [congruence | apply IH, Hin].
  - destruct Hin as [->|Hin]; [congruence | apply IH, Hin].
  - eauto.
Qed.

(** X12: the claimable set is exactly the positions that pass the gating, in
    the order they were read, each with the values [getClaimableInfo]
    computed for it. *)
Theorem claimable_are_the_gated (wallet : string) (ps : list ClaimablePosition)
  (cs : list Claimable) :
  collectClaimable wallet ps [] = Return cs ->
  map position cs = filter (fun p => passes_gating p wallet) ps
  /\ Forall (fun c => getClaimableInfo (position c) wallet
                      = Return (Some (infoOf c))) cs
  /\ (length cs <= length ps)%nat.
Proof.
  intros H. destruct (collectClaimable_spec wallet ps [] cs H) as (new & -> & Hmap & Hall).
  cbn [app]. split; [exact Hmap|]. split; [exact Hall|].
  rewrite <- (length_map position new), Hmap. apply filter_length_le.
Qed.

Lemma claimable_are_the_gated_witness :
  map position threeEntries = filter (fun p => passes_gating p alice) threeWinners
  /\ Forall (fun c => getClaimableInfo (position c) alice
                      = Return (Some (infoOf c))) threeEntries
  /\ (length threeEntries <= length threeWinners)%nat.
Proof.
  apply (claimable_are_the_gated alice threeWinners threeEntries). reflexivity.
Defined.

(** X13: one position that passes the gating with a total collateral that is
    no integer literal makes the whole pass fail: the handler reports a
    failure and the world is left as it was after the last page was
    read, whatever the other positions are. *)
Theorem malformed_position_aborts_pass {RT : Runtime} (env : Env) (fuel : nat)
  (w w1 : World) (ps : list ClaimablePosition) (p : ClaimablePosition) :
  loadEnv = Return env ->
  readPositions env fuel 0 [] w = Some (w1, Return ps) ->
  In p ps ->
  passes_gating p (walletAddress env) = true ->
  StringToBigInt (totalCollateral p) = None ->
  exists m, handler fuel w = Some (w1, ActionFailed m).
Proof.
  intros Henv Hread Hin Hg Hbad.
  destruct (collectClaimable_throws (walletAddress env) p _
              (getClaimableInfo_bad_total p _ Hg Hbad) ps [] Hin) as (e & He).
  unfold handler. rewrite Henv, Hread. unfold reconcile.
  destruct ps as [|q rest]; [destruct Hin|].
  change ((length (q :: rest) =? 0)%nat) with false. cbv iota.
  unfold bind, lift. rewrite He. eauto.
Qed.

Lemma malformed_position_aborts_pass_witness :
  exists m,
    handler (RT := scripted alice acceptAll) 1
      (freshLedger [[scenarioA; malformed]])
    = Some ({| pending := [];
               requests := pageRequests (RT := scripted alice acceptAll) sampleEnv 0 1;
               submitted := [] |}, ActionFailed m).
Proof.
  apply (malformed_position_aborts_pass (RT := scripted alice acceptAll)
           sampleEnv 1 (freshLedger [[scenarioA; malformed]]) _
           [scenarioA; malformed] malformed);
    try reflexivity. right. left. reflexivity.
Defined.

(* ================================================================== *)
(** ** Properties of the report and of what the handler submits *)
(* ================================================================== *)

Lemma filter_split_length {A} (f : A -> bool) (l : list A) :
  (length l = length (filter f l) + length (filter (fun x => negb (f x)) l))%nat.
Proof.
  induction l as [|x l IH]; [reflexivity|].
  cbn [filter]. destruct (f x); cbn [negb length]; lia.
Qed.

Lemma disjoint_filters_length {A} (f g : A -> bool) (l : list A) :
  Forall (fun x => f x && g x = false) l ->
  (length (filter f l) + length (filter g l) <= length l)%nat.
Proof.
  induction 1 as [|x l Hx _ IH]; [reflexivity|].
  cbn [filter]. destruct (f x), (g x); cbn [length] in *; try discriminate; lia.
Qed.

Lemma ResultFor_exclusive {RT : Runtime} (cs : list Claimable) (rs : list ClaimResult) :
  Forall2 ResultFor cs rs ->
  Forall (fun r => truthy_opt (txHash r) && truthy_opt (error r) = false) rs.
Proof.
  induction 1 as [|c r cs rs Hr _ IH]; constructor; [|exact IH].
  destruct Hr as (_ & _ & _ & [(h & -> & ->)|(m & -> & ->)]).
  - apply Bool.andb_false_r.
  - reflexivity.
Qed.

(** X14: the counts of a report add up: every claimable position is a winner
    or a loser, there is one result per winner, no result is counted both
    as a success and as a failure, and [success] says that at least one
    claim went through. *)
Theorem report_counts_add_up {RT : Runtime} (env : Env) (cs : list Claimable)
  (w w' : World) (rep : Report) :
  claimAndReport env cs w = (w', Return (Claimed rep)) ->
  claimableCount rep = (winningCount rep + losingCount rep)%nat
  /\ claimableCount rep = length cs
  /\ (0 < winningCount rep)%nat
  /\ length (results rep) = winningCount rep
  /\ (successfulClaims rep + failedClaims rep <= winningCount rep)%nat
  /\ (success rep = true <-> (0 < successfulClaims rep)%nat).
Proof.
  intros H.
  destruct (filter c_isWinner cs) as [|c0 ws] eqn:Hf.
  - unfold claimAndReport in H. rewrite Hf in H. discriminate H.
  - assert (Hne : filter c_isWinner cs <> []) by congruence.
    destruct (claimAndReport_with_winners env cs w Hne)
      as [(w1 & e & _ & E)|(w1 & w2 & rs & _ & _ & Hrs & E)];
      rewrite E in H; [discriminate|].
    injection H as _ <-.
    cbn [claimableCount winningCount losingCount results successfulClaims
           failedClaims success].
    pose proof (Forall2_length Hrs) as Hlen.
    split; [apply filter_split_length|]. split; [reflexivity|].
    split; [rewrite Hf; cbn; lia|]. split; [symmetry; exact Hlen|].
    split.
    + rewrite Hlen. apply disjoint_filters_length.
      apply (ResultFor_exclusive _ _ Hrs).
    + apply Nat.ltb_lt.
Qed.

Lemma report_counts_add_up_witness :
  exists l rep,
    claimAndReport (RT := scripted alice secondReverts) sampleEnv threeEntries
      (freshLedger []) = (l, Return (Claimed rep))
    /\ claimableCount rep = (winningCount rep + losingCount rep)%nat
    /\ (successfulClaims rep + failedClaims rep <= winningCount rep)%nat.
Proof.
  edestruct (report_counts_add_up (RT := scripted alice secondReverts) sampleEnv
               threeEntries (freshLedger [])) as (H1 & _ & _ & _ & H2 & _).
  - vm_compute. reflexivity.
  - do 2 eexists. split; [vm_compute; reflexivity|].
    split; [exact H1 | exact H2].
Defined.

Section LoggingHandler.
Variable cfg : Env.
Variable chain : Z.
Variable respond : IndexBehaviour.
Variable encode : Z -> string -> Completion string.
Variable format : Z -> string.
Variable policy : Policy.

Local Abbreviation RT := (logging cfg chain respond encode format policy).

Lemma logging_requestPage (skip : nat) (l : Ledger) :
  submitted (fst (requestPage (RT := RT) cfg skip l)) = submitted l.
Proof.
  unfold requestPage, graphqlRequest, bind, throw, lift, ret.
  cbn [fetch logging]. unfold serveWith.
  destruct (respond (requests l) _) as [resp|e]; [|reflexivity].
  destruct (ok resp); cbn [negb]; [|reflexivity].
  destruct (json resp) as [body|e]; [|reflexivity].
  destruct (errors body); reflexivity.
Qed.

Lemma logging_read_keeps_submitted (fuel : nat) :
  forall skip acc l l1 r,
    readPositions (RT := RT) cfg fuel skip acc l = Some (l1, r) ->
    submitted l1 = submitted l.
Proof.
  induction fuel as [|fuel IH]; intros skip acc l l1 r H; [discriminate|].
  cbn [readPositions] in H.
  pose proof (logging_requestPage skip l) as Hreq.
  destruct (requestPage (RT := RT) cfg skip l) as [l2 [response|e]];
    cbn [fst] in Hreq.
  - destruct (length (positions response) <? PAGE_SIZE)%nat.
    + injection H as <- _. exact Hreq.
    + apply IH in H. congruence.
  - injection H as <- _. exact Hreq.
Qed.

Lemma attempt_shape (c : Claimable) :
  Forall (fun a => to (tx a) = marketContract cfg /\ value (tx a) = "0"
                   /\ rpc a = rpcUrl cfg /\ s_privateKey a = privateKey cfg
                   /\ s_chainId a = chain)
    (attempt (RT := RT) cfg c).
Proof.
  unfold attempt. destruct (BigInt (c_tokenId c)); [|constructor].
  destruct (encodeFunctionData _ _); repeat constructor.
Qed.

Lemma logging_reconcile (ps : list ClaimablePosition) (l : Ledger) :
  exists l' r,
    reconcile (RT := RT) cfg ps l = (l', r)
    /\ submitted l' =
       (submitted l ++ flat_map (attempt (RT := RT) cfg)
                         (winnersRead (walletAddress cfg) ps))%list
    /\ (winnersRead (walletAddress cfg) ps = [] \/ exists rep, r = Return (Claimed rep)).
Proof.
  unfold reconcile, winnersRead.
  destruct ps as [|p rest].
  - exists l. eexists. split; [reflexivity|]. cbn. rewrite app_nil_r. auto.
  - change ((length (p :: rest) =? 0)%nat) with false. cbv iota.
    unfold bind at 1, lift.
    destruct (collectClaimable (walletAddress cfg) (p :: rest) []) as [cs|e].
    + destruct cs as [|c cs].
      * exists l. eexists. split; [reflexivity|]. cbn. rewrite app_nil_r. auto.
      * change ((length (c :: cs) =? 0)%nat) with false. cbv iota.
        destruct (filter c_isWinner (c :: cs)) as [|c0 ws] eqn:Hf.
        -- exists l. eexists. split.
           ++ unfold claimAndReport. rewrite Hf. reflexivity.
           ++ cbn. rewrite app_nil_r. auto.
        -- assert (Hne : filter c_isWinner (c :: cs) <> []) by congruence.
           destruct (claimAndReport_with_winners (RT := RT) cfg (c :: cs) l Hne)
             as [(w1 & e & Hsdk & _)|(w1 & w2 & rs & Hsdk & Hloop & _ & E)];
             [discriminate Hsdk|].
           injection Hsdk as <-.
           do 2 eexists. split; [exact E|]. split; [|right; eauto].
           assert (Hw2 : w2 = fst (burnTrace (RT := RT) cfg
                                     (filter c_isWinner (c :: cs)) l))
             by (rewrite (claimLoop_trace (RT := RT)) in Hloop; congruence).
           destruct (logging_burnTrace cfg chain respond encode format policy cfg
                       (filter c_isWinner (c :: cs)) l) as (_ & _ & Hs).
           cbv zeta in Hs. rewrite Hw2, Hs, Hf. reflexivity.
    + exists l. eexists. split; [reflexivity|]. cbn. rewrite app_nil_r. auto.
Qed.

Lemma logging_loadEnv : loadEnv (RT := RT) = Return cfg.
Proof. destruct cfg. reflexivity. Qed.

End LoggingHandler.

(** X15: on a chain that logs, for any configuration, index, encoder and
    answers of the chain, the handler submits the burns of the winning
    entries of the positions it read, in order, and nothing else: never
    for a loser, never when the pass ends without a claim report; and
    every transaction goes to the configured market contract with value
    0, through the configured endpoint, key and chain. *)
Theorem only_winners_are_submitted (cfg : Env) (chain : Z)
  (respond : IndexBehaviour) (encode : Z -> string -> Completion string)
  (format : Z -> string) (policy : Policy)
  (fuel : nat) (l l' : Ledger) (content : Content) :
  handler (RT := logging cfg chain respond encode format policy) fuel l
  = Some (l', content) ->
  exists burned,
    submitted l' =
    (submitted l
     ++ flat_map (attempt (RT := logging cfg chain respond encode format policy) cfg)
          burned)%list
    /\ Forall (fun c => c_isWinner c = true) burned
    /\ (forall l1 ps,
          readPositions (RT := logging cfg chain respond encode format policy)
            cfg fuel 0 [] l = Some (l1, Return ps) ->
          burned = winnersRead (walletAddress cfg) ps)
    /\ (forall l1 e,
          readPositions (RT := logging cfg chain respond encode format policy)
            cfg fuel 0 [] l = Some (l1, Throw e) ->
          burned = [])
    /\ Forall (fun a => to (tx a) = marketContract cfg /\ value (tx a) = "0"
                        /\ rpc a = rpcUrl cfg /\ s_privateKey a = privateKey cfg
                        /\ s_chainId a = chain)
         (flat_map (attempt (RT := logging cfg chain respond encode format policy) cfg)
            burned)
    /\ ((forall rep, content <> Claimed rep) -> submitted l' = submitted l).
Proof.
  intros H. unfold handler in H.
  rewrite logging_loadEnv in H.
  destruct (readPositions (RT := logging cfg chain respond encode format policy)
              cfg fuel 0 [] l) as [[l1 r]|] eqn:Hread; [|discriminate].
  pose proof (logging_read_keeps_submitted cfg chain respond encode format policy
                fuel 0%nat [] l l1 r Hread) as Hsub.
  destruct r as [ps|e].
  - destruct (logging_reconcile cfg chain respond encode format policy ps l1)
      as (l2 & r & E & Hs & Hcase).
    rewrite E in H.
    assert (Hl : l' = l2) by (destruct r; injection H as <- _; reflexivity).
    subst l2. rewrite Hsub in Hs.
    exists (winnersRead (walletAddress cfg) ps).
    split; [exact Hs|]. split.
    { unfold winnersRead.
      destruct (collectClaimable (walletAddress cfg) ps []); [|constructor].
      apply Forall_forall. intros c Hc. apply filter_In in Hc. apply Hc. }
    split; [intros l3 ps' Heq; congruence|].
    split; [intros l3 e Heq; discriminate|].
    split.
    + apply Forall_flat_map, Forall_forall. intros c _. apply attempt_shape.
    + intros Hnot. destruct Hcase as [Hnil|(rep & ->)].
      * rewrite Hs, Hnil. cbn. apply app_nil_r.
      * exfalso. apply (Hnot rep). cbn in H. congruence.
  - injection H as <- _. exists [].
    split; [cbn; rewrite app_nil_r; exact Hsub|].
    split; [constructor|].
    split; [intros l3 ps Heq; discriminate|].
    split; [reflexivity|].
    split; [constructor|]. intros _. exact Hsub.
Qed.

(** Three winning positions whose second burn reverts, behind a
    position of other wallets and a losing one: the three burns are
    submitted, in order, and nothing for the other two. *)
Lemma only_winners_are_submitted_witness :
  exists l' content,
    handler (RT := logging sampleEnv 5064014
                     (sliceOf (mkPosition bob "0xC0de" "7" (Some "3") (Some "4")
                                 [mkLeg true (Some (mkCondition true true))]
                               :: mkPosition bob alice "9" (Some "4") (Some "5")
                                 [mkLeg true (Some (mkCondition true true))]
                               :: threeWinners))
                     encodeBurn (fun v => formatUnits v 18) secondReverts)
      1 (freshLedger []) = Some (l', content)
    /\ burnsOf l' = ["burn(11," ++ zeroRefCode ++ ")";
                     "burn(21," ++ zeroRefCode ++ ")";
                     "burn(31," ++ zeroRefCode ++ ")"].
Proof.
  edestruct (only_winners_are_submitted sampleEnv 5064014
               (sliceOf (mkPosition bob "0xC0de" "7" (Some "3") (Some "4")
                                 [mkLeg true (Some (mkCondition true true))]
                               :: mkPosition bob alice "9" (Some "4") (Some "5")
                           [mkLeg true (Some (mkCondition true true))]
                         :: threeWinners))
               encodeBurn (fun v => formatUnits v 18) secondReverts 1 (freshLedger []))
    as (burned & Hs & _ & Hread & _).
  - vm_compute. reflexivity.
  - do 2 eexists. split; [vm_compute; reflexivity|].
    unfold burnsOf. rewrite Hs.
    rewrite (Hread _ _ ltac:(vm_compute; reflexivity)).
    vm_compute. reflexivity.
Defined.

(* ================================================================== *)
(** ** The reader against an index that answers by itself *)
(* ================================================================== *)

Lemma pageRequests_step {RT : Runtime} (env : Env) (start n : nat) :
  pageRequests env start (S n) =
  {| query := CLAIMABLE_POSITIONS_QUERY; variables := pageBody env start |}
  :: pageRequests env (start + PAGE_SIZE) n.
Proof.
  unfold pageRequests. rewrite <- cons_seq. cbn [map].
  rewrite <- seq_shift, map_map. f_equal.
  - do 2 f_equal. lia.
  - apply map_ext. intros i. do 2 f_equal. lia.
Qed.

Lemma firstn_plus {A} (a b : nat) :
  forall l : list A, firstn (a + b) l = (firstn a l ++ firstn b (skipn a l))%list.
Proof.
  induction a as [|a IH]; intros l; [reflexivity|].
  destruct l as [|x l]; cbn [Nat.add firstn skipn app].
  - rewrite firstn_nil. reflexivity.
  - rewrite IH. reflexivity.
Qed.

Section IndexedReader.
Variable respond : IndexBehaviour.
Variable wallet : string.
Variable policy : Policy.
Variable env : Env.

Local Abbreviation RT := (indexed respond wallet policy).

Lemma indexed_requestPage_ok (skip : nat) (l : Ledger)
  (page : list ClaimablePosition) :
  respond (requests l)
    {| query := CLAIMABLE_POSITIONS_QUERY;
       variables := pageBody (RT := RT) env skip |} = Return (okPage page) ->
  requestPage (RT := RT) env skip l =
  (afterRequest (RT := RT) env skip l, Return {| positions := page |}).
Proof.
  intros H. unfold requestPage, graphqlRequest, bind.
  cbn [fetch indexed]. unfold serveWith. rewrite H. reflexivity.
Qed.

Lemma indexed_requestPage_refused (skip : nat) (l : Ledger) (resp : HttpResponse) :
  respond (requests l)
    {| query := CLAIMABLE_POSITIONS_QUERY;
       variables := pageBody (RT := RT) env skip |} = Return resp ->
  ok resp = false ->
  requestPage (RT := RT) env skip l =
  (afterRequest (RT := RT) env skip l,
   Throw (PlainError ("GraphQL request failed: " ++ statusText resp))).
Proof.
  intros H Hok. unfold requestPage, graphqlRequest, bind.
  cbn [fetch indexed]. unfold serveWith. rewrite H, Hok. reflexivity.
Qed.

End IndexedReader.

Lemma slice_read (dataset : list ClaimablePosition) (wallet : string)
  (policy : Policy) (env : Env) (fuel : nat) :
  forall skip l,
    (skip <= length dataset)%nat ->
    (length dataset - skip < fuel * PAGE_SIZE)%nat ->
    readPositions (RT := indexed (sliceOf dataset) wallet policy) env fuel skip
      (firstn skip dataset) l =
    Some ({| pending := pending l;
             requests :=
               (requests l
                ++ pageRequests (RT := indexed (sliceOf dataset) wallet policy)
                     env skip ((length dataset - skip) / PAGE_SIZE + 1))%list;
             submitted := submitted l |},
          Return dataset).
Proof.
  induction fuel as [|fuel IH]; intros skip l Hskip Hfuel; [cbn in Hfuel; lia|].
  pose proof (indexed_requestPage_ok (sliceOf dataset) wallet policy env skip l
                (firstn PAGE_SIZE (skipn skip dataset)) eq_refl) as Hreq.
  destruct (Nat.lt_ge_cases (length dataset - skip) PAGE_SIZE) as [Hshort|Hlong].
  - rewrite (readPositions_short (RT := indexed (sliceOf dataset) wallet policy)
               env fuel skip _ l _ _ Hreq).
    + cbn [positions]. rewrite (@firstn_all2 _ PAGE_SIZE (skipn skip dataset))
        by (rewrite length_skipn; lia).
      rewrite firstn_skipn, Nat.div_small by exact Hshort.
      cbn [Nat.add]. rewrite pageRequests_step. reflexivity.
    + cbn [positions]. rewrite length_firstn, length_skipn. lia.
  - rewrite (readPositions_full (RT := indexed (sliceOf dataset) wallet policy)
               env fuel skip _ l _ _ Hreq).
    + cbn [positions]. rewrite <- firstn_plus.
      rewrite (IH (skip + PAGE_SIZE)%nat (afterRequest (RT := indexed (sliceOf dataset) wallet policy) env skip l)).
      * cbn [afterRequest pending requests submitted].
        replace ((length dataset - skip) / PAGE_SIZE + 1)%nat
          with (S ((length dataset - (skip + PAGE_SIZE)) / PAGE_SIZE + 1)).
        -- rewrite (pageRequests_step env skip), <- app_assoc. reflexivity.
        -- replace (length dataset - skip)%nat
             with ((length dataset - (skip + PAGE_SIZE)) + 1 * PAGE_SIZE)%nat by lia.
           rewrite Nat.div_add by (unfold PAGE_SIZE; lia).
           replace (length dataset - (skip + PAGE_SIZE) + 1 * PAGE_SIZE
                    - (skip + PAGE_SIZE))%nat
             with (length dataset - (skip + PAGE_SIZE) - skip)%nat by lia.
           lia.
      * lia.
      * cbn [Nat.mul] in Hfuel. lia.
    + cbn [positions]. rewrite length_firstn, length_skipn. lia.
Qed.

Lemma reader_fetches_dataset (dataset : list ClaimablePosition)
  (wallet : string) (policy : Policy) (env : Env) (fuel : nat) (l : Ledger) :
  (length dataset < fuel * PAGE_SIZE)%nat ->
  readPositions (RT := indexed (sliceOf dataset) wallet policy) env fuel 0 [] l =
  Some ({| pending := pending l;
           requests :=
             (requests l
              ++ pageRequests (RT := indexed (sliceOf dataset) wallet policy)
                   env 0 (length dataset / PAGE_SIZE + 1))%list;
           submitted := submitted l |},
        Return dataset).
Proof.
  intros Hfuel.
  pose proof (slice_read dataset wallet policy env fuel 0%nat l) as H.
  rewrite Nat.sub_0_r in H. cbn [firstn] in H. apply H; lia.
Qed.

(** X16: against an index that holds a list of positions and honours [take]
    and [skip], the reader returns exactly that list, each position once
    and in order, after one request per started page of 100 plus one. *)
Theorem reader_returns_whole_dataset (dataset : list ClaimablePosition)
  (wallet : string) (policy : Policy) (env : Env) (fuel : nat) (l : Ledger) :
  (length dataset < fuel * PAGE_SIZE)%nat ->
  readPositions (RT := indexed (sliceOf dataset) wallet policy) env fuel 0 [] l =
  Some ({| pending := pending l;
           requests :=
             (requests l
              ++ pageRequests (RT := indexed (sliceOf dataset) wallet policy)
                   env 0 (length dataset / PAGE_SIZE + 1))%list;
           submitted := submitted l |},
        Return dataset).
Proof. exact (reader_fetches_dataset dataset wallet policy env fuel l). Qed.

Lemma reader_returns_whole_dataset_witness :
  exists l,
    readPositions (RT := indexed (sliceOf (repeat scenarioA 237)) alice acceptAll)
      sampleEnv 3 0 [] (freshLedger []) = Some (l, Return (repeat scenarioA 237))
    /\ skipsOf l = [0; 100; 200]%nat.
Proof.
  eexists. split.
  - apply (reader_returns_whole_dataset (repeat scenarioA 237) alice acceptAll
             sampleEnv 3 (freshLedger [])).
    rewrite repeat_length. unfold PAGE_SIZE. lia.
  - rewrite repeat_length. reflexivity.
Defined.

Lemma failing_read (k : nat) (reason : string) (filler : ClaimablePosition)
  (wallet : string) (policy : Policy) (env : Env) (n : nat) :
  forall fuel skip acc l,
    (length (requests l) + n = k)%nat ->
    (n < fuel)%nat ->
    readPositions (RT := indexed (failingAt k reason filler) wallet policy)
      env fuel skip acc l =
    Some ({| pending := pending l;
             requests :=
               (requests l
                ++ pageRequests (RT := indexed (failingAt k reason filler) wallet policy)
                     env skip (S n))%list;
             submitted := submitted l |},
          Throw (PlainError ("GraphQL request failed: " ++ reason))).
Proof.
  induction n as [|n IH]; intros fuel skip acc l Hk Hfuel;
    (destruct fuel as [|fuel]; [lia|]).
  - assert (Hresp : failingAt k reason filler (requests l)
                      {| query := CLAIMABLE_POSITIONS_QUERY;
                         variables := pageBody
                           (RT := indexed (failingAt k reason filler) wallet policy)
                           env skip |}
                    = Return {| ok := false; statusText := reason;
                                json := Throw (PlainError "Unexpected end of JSON input") |}).
    { unfold failingAt. replace (length (requests l)) with k by lia.
      rewrite Nat.eqb_refl. reflexivity. }
    rewrite (readPositions_throw
               (RT := indexed (failingAt k reason filler) wallet policy)
               env fuel skip acc l _ _
               (indexed_requestPage_refused _ wallet policy env skip l _ Hresp eq_refl)).
    rewrite pageRequests_step. reflexivity.
  - assert (Hresp : failingAt k reason filler (requests l)
                      {| query := CLAIMABLE_POSITIONS_QUERY;
                         variables := pageBody
                           (RT := indexed (failingAt k reason filler) wallet policy)
                           env skip |}
                    = Return (okPage (repeat filler PAGE_SIZE))).
    { unfold failingAt.
      destruct (Nat.eqb_spec (length (requests l)) k); [lia | reflexivity]. }
    rewrite (readPositions_full
               (RT := indexed (failingAt k reason filler) wallet policy)
               env fuel skip acc l _ _
               (indexed_requestPage_ok _ wallet policy env skip l _ Hresp)).
    + rewrite (IH fuel).
      * cbn [afterRequest pending requests submitted].
        rewrite (pageRequests_step env skip (S n)), <- app_assoc. reflexivity.
      * cbn [afterRequest requests]. rewrite length_app. cbn [length]. lia.
      * lia.
    + cbn [positions]. rewrite repeat_length. apply le_n.
Qed.

(** X17: when the index refuses one page request, however many full pages it
    served before, the handler reports the HTTP status as a failure,
    makes no further request and submits no transaction: the positions
    already read are not used. *)
Theorem failed_page_aborts_pass (k : nat) (reason : string)
  (filler : ClaimablePosition) (wallet : string) (policy : Policy) (fuel : nat) :
  (k < fuel)%nat ->
  handler (RT := indexed (failingAt k reason filler) wallet policy) fuel
    (freshLedger []) =
  Some ({| pending := [];
           requests := pageRequests
                         (RT := indexed (failingAt k reason filler) wallet policy)
                         (envOf wallet) 0 (S k);
           submitted := [] |},
        ActionFailed ("GraphQL request failed: " ++ reason)).
Proof.
  intros Hfuel. unfold handler.
  change (loadEnv (RT := indexed (failingAt k reason filler) wallet policy))
    with (Return (envOf wallet)).
  cbv iota.
  rewrite (failing_read k reason filler wallet policy (envOf wallet) k fuel 0%nat []
             (freshLedger []) eq_refl Hfuel).
  reflexivity.
Qed.

Lemma failed_page_aborts_pass_witness :
  exists l,
    handler (RT := indexed (failingAt 1 "Bad Gateway" scenarioA) alice acceptAll) 5
      (freshLedger []) =
    Some (l, ActionFailed "GraphQL request failed: Bad Gateway")
    /\ skipsOf l = [0; 100]%nat /\ submitted l = [].
Proof.
  eexists. split.
  - apply (failed_page_aborts_pass 1 "Bad Gateway" scenarioA alice acceptAll 5).
    lia.
  - split; reflexivity.
Defined.

(* ================================================================== *)
(** ** Further properties of the claim loop and of the handler *)
(* ================================================================== *)

(** X18: a transaction hash in a result is one the chain returned for the burn
    of that very position: the token id was an integer literal, the call
    was encoded with the position's referral code, or with 32 zero bytes
    when it has none, and the submission succeeded. *)
Theorem recorded_hash_comes_from_chain {RT : Runtime} (env : Env) (c : Claimable)
  (w w' : World) (r : ClaimResult) (h : string) :
  claimPosition env c w = (w', Return r) ->
  txHash r = Some h ->
  exists id calldata,
    StringToBigInt (c_tokenId c) = Some id
    /\ encodeFunctionData id (refCodeOf (position c)) = Return calldata
    /\ submitTransaction (burnRequest env calldata) w = (w', Return {| hash := h |})
    /\ (refCode (position c) = Some (refCodeOf (position c))
        \/ (truthy_opt (refCode (position c)) = false
            /\ refCodeOf (position c) = zeroRefCode))
    /\ String.length zeroRefCode = 66%nat.
Proof.
  unfold claimPosition, try_catch, submitClaim, recordFailure, bind, lift, ret, BigInt.
  intros H Hh.
  destruct (StringToBigInt (c_tokenId c)) as [id|] eqn:Hid.
  - destruct (encodeFunctionData id (refCodeOf (position c))) as [calldata|e] eqn:Henc.
    + destruct (submitTransaction (burnRequest env calldata) w) as [w1 [[h1]|e]] eqn:Hsub.
      * injection H as <- <-. cbn in Hh. injection Hh as <-.
        exists id, calldata. repeat split; try assumption.
        unfold refCodeOf. destruct (refCode (position c)) as [rc|]; cbn.
        -- destruct (truthy rc); auto.
        -- auto.
      * injection H as _ <-. discriminate Hh.
    + injection H as _ <-. discriminate Hh.
  - injection H as _ <-. discriminate Hh.
Qed.

Lemma recorded_hash_comes_from_chain_witness :
  exists id calldata,
    StringToBigInt "11" = Some id
    /\ encodeBurn id zeroRefCode = Return calldata.
Proof.
  edestruct (recorded_hash_comes_from_chain (RT := scripted alice acceptAll)
               sampleEnv (entryOf (winnerOf "11" "100" "40") 60) (freshLedger []))
    as (id & calldata & H1 & H2 & _).
  - vm_compute. reflexivity.
  - reflexivity.
  - exists id, calldata. split; [exact H1 | exact H2].
Defined.

(** X19: when one of the configuration reads throws, the handler reports the
    failure at once: no page is requested and nothing is submitted, for
    any amount of fuel. *)
Theorem missing_configuration_stops_handler {RT : Runtime} (e : Error)
  (fuel : nat) (w : World) :
  getWalletAddress = Throw e
  \/ getPrivateKey = Throw e
  \/ getTradingRpcUrl = Throw e
  \/ getTradingContractAddresses = Throw e
  \/ getApiEndpoints = Throw e ->
  exists m, handler fuel w = Some (w, ActionFailed m).
Proof.
  intros H. unfold handler.
  assert (Henv : exists e', loadEnv = Throw e').
  { unfold loadEnv, bindC.
    destruct getWalletAddress; [|eauto].
    destruct getPrivateKey; [|eauto].
    destruct getTradingRpcUrl; [|eauto].
    destruct getTradingContractAddresses; [|eauto].
    destruct getApiEndpoints; [|eauto].
    destruct H as [H|[H|[H|[H|H]]]]; discriminate H. }
  destruct Henv as (e' & ->). eauto.
Qed.

Lemma missing_configuration_stops_handler_witness :
  exists m,
    handler (RT := unconfigured alice acceptAll) 0 (freshLedger [threeWinners])
    = Some (freshLedger [threeWinners], ActionFailed m).
Proof.
  apply (missing_configuration_stops_handler (RT := unconfigured alice acceptAll)
           (PlainError "PRIVATE_KEY is not set")).
  right. left. reflexivity.
Defined.

Lemma no_winner_all_losers (cs : list Claimable) :
  filter c_isWinner cs = [] ->
  length (filter (fun p => negb (c_isWinner p)) cs) = length cs.
Proof.
  intros H. rewrite (filter_split_length c_isWinner cs), H. reflexivity.
Qed.

(** X20: the outcomes of a pass over an index that holds [dataset]: nothing
    to check when it is empty, a failure when a position cannot be
    evaluated, none settled when no position passes the gating, no
    winners when every claimable position is lost, and a claim report
    otherwise. *)
Theorem handler_outcome_on_dataset (dataset : list ClaimablePosition)
  (wallet : string) (policy : Policy) (fuel : nat) :
  (length dataset < fuel * PAGE_SIZE)%nat ->
  exists l' content,
    handler (RT := indexed (sliceOf dataset) wallet policy) fuel (freshLedger [])
    = Some (l', content)
    /\ (dataset = [] -> content = NoActivePositions)
    /\ (dataset <> [] ->
        match collectClaimable wallet dataset [] with
        | Throw e => content = ActionFailed (error_message e)
        | Return [] => content = NoneSettled (length dataset)
        | Return cs =>
            if (length (filter c_isWinner cs) =? 0)%nat
            then content = NoWinners (length cs) (length cs)
            else exists rep,
                content = Claimed rep
                /\ claimableCount rep = length cs
                /\ winningCount rep = length (filter c_isWinner cs)
        end).
Proof.
  intros Hfuel. unfold handler.
  change (loadEnv (RT := indexed (sliceOf dataset) wallet policy))
    with (Return (envOf wallet)).
  cbv iota.
  rewrite (reader_fetches_dataset dataset wallet policy (envOf wallet) fuel
             (freshLedger []) Hfuel).
  unfold reconcile. destruct dataset as [|p rest].
  - do 2 eexists. split; [reflexivity|]. split; [reflexivity | congruence].
  - change ((length (p :: rest) =? 0)%nat) with false. cbv iota.
    unfold bind at 1, lift. cbn [walletAddress envOf].
    destruct (collectClaimable wallet (p :: rest) []) as [[|c cs]|e].
    + do 2 eexists. split; [reflexivity|]. split; [discriminate | reflexivity].
    + change ((length (c :: cs) =? 0)%nat) with false. cbv iota.
      destruct (filter c_isWinner (c :: cs)) as [|c0 ws] eqn:Hf.
      * do 2 eexists. split.
        -- unfold claimAndReport. rewrite Hf. reflexivity.
        -- split; [discriminate|]. intros _. cbn [length Nat.eqb].
           rewrite (no_winner_all_losers (c :: cs) Hf). reflexivity.
      * assert (Hne : filter c_isWinner (c :: cs) <> []) by congruence.
        match goal with
        | |- context [claimAndReport _ _ ?w] =>
            destruct (claimAndReport_with_winners
                        (RT := indexed (sliceOf (p :: rest)) wallet policy)
                        (envOf wallet) (c :: cs) w Hne)
              as [(w1 & e & Hsdk & _)|(w1 & w2 & rs & _ & _ & _ & E)];
              [discriminate Hsdk|]
        end.
        rewrite E. do 2 eexists. split; [reflexivity|].
        split; [discriminate|]. intros _.
        cbn [length Nat.eqb]. cbv iota.
        eexists. split; [reflexivity|]. cbn [claimableCount winningCount].
        rewrite Hf. split; reflexivity.
    + do 2 eexists. split; [reflexivity|]. split; [discriminate | reflexivity].
Qed.

Lemma handler_outcome_on_dataset_witness :
  exists l',
    handler (RT := indexed (sliceOf [selfTrade; scenarioA]) bob acceptAll) 1
      (freshLedger []) = Some (l', NoWinners 1 1).
Proof.
  edestruct (handler_outcome_on_dataset [selfTrade; scenarioA] bob acceptAll 1)
    as (l' & content & H & _ & Hc).
  - unfold PAGE_SIZE. cbn. lia.
  - exists l'. rewrite H. f_equal. f_equal.
    apply Hc. discriminate.
Defined.
